(** * ItemCollectGame: replicated item and score state, reactive binder,
      authoritative spawn system

    Shallow embedding of [src/ItemCollectGame.tsx].

    - [ItemActions] : the two action kinds (spawn, destroy).
    - [ScoreState], [ItemState] : the two hyperflux states and their receptors.
    - [ItemReactor] : the per-item reactor that configures the entity.
    - [ItemSpawnSystem] : the per-tick spawn system.

    JavaScript records used as dictionaries are finite maps ([gmap]); an
    [Entity] is the engine's branded number, [UndefinedEntity] being [0];
    [EntityUUID] and [UserID] are branded strings.  A score is a JavaScript
    number that only ever holds the integers produced by [1] and [val + 1];
    it is modelled as [Z] (the additions are exact below [2^53]).

    Two pieces of hyperflux that the source relies on are made explicit:
    the action creator, which throws on a literal that does not match the
    action's shape ([ItemActions_spawn], [ItemSpawnSystem.run]), and the
    hookstate proxy, on which a string that names one of its members does
    not index a nested state ([proxyMembers], [deliverAction]). *)

From Stdlib Require Import ZArith QArith Qround Lqa.
From stdpp Require Import gmap strings list fin_maps.

Local Open Scope Z_scope.
Local Open Scope string_scope.

(** ** Identifiers *)

(** The engine's branded types are the types they brand. *)
Abbreviation EntityUUID := string (only parsing).
Abbreviation UserID := string (only parsing).
Abbreviation Entity := N (only parsing).

Definition UndefinedEntity : Entity := 0%N.

(** ** Action schema *)

Definition ValidItemColors : list string :=
  ["red"; "blue"; "green"; "yellow"; "purple"; "orange"; "pink"; "brown"].

Record Vector3 := mkVector3 { vx : Q; vy : Q; vz : Q }.
Record Quaternion := mkQuaternion { qx : Q; qy : Q; qz : Q; qw : Q }.

(** A received [ItemActions.spawn] action: the fields of
    [SpawnObjectActions.spawnObject] the game uses, plus [color]. *)
Record SpawnAction := mkSpawn {
  spawn_parentUUID : EntityUUID;
  spawn_entityUUID : EntityUUID;
  spawn_color : string;
  spawn_position : Vector3;
  spawn_rotation : Quaternion
}.

(** A received [ItemActions.destroy] action: [WorldNetworkAction.destroyEntity]
    extended with the collecting user. *)
Record DestroyAction := mkDestroy {
  destroy_entityUUID : EntityUUID;
  destroy_userID : UserID
}.

(** What arrives in a process's incoming action queue.  [OtherAction] stands
    for every action type other than the two the game defines. *)
Inductive Action :=
| SpawnA (a : SpawnAction)
| DestroyA (a : DestroyAction)
| OtherAction (type : string).

Module ItemActions.

(** Modelled from the spec: hyperflux's [defineAction] / [receive], which
    are not part of the source file.  A receptor built with
    [ItemActions.spawn.receive] runs only on actions that match the shape
    declared at lines 50-55, whose game-specific entry is
    [color: matches.literals(...ValidItemColors)]; an action that does not
    match is skipped by the receptor ("rejected by every receiver (not
    applied) if its color is outside the fixed set"). *)
Definition spawn_matches (a : Action) : option SpawnAction :=
  match a with
  | SpawnA s => if bool_decide (spawn_color s ∈ ValidItemColors) then Some s else None
  | _ => None
  end.

(** Modelled from the spec: the same for [ItemActions.destroy.receive];
    [entityUUID] and [userID] are string validators, which every value of
    the typed record passes. *)
Definition destroy_matches (a : Action) : option DestroyAction :=
  match a with
  | DestroyA d => Some d
  | _ => None
  end.

End ItemActions.

(** ** ScoreState: how many items each user has collected *)

Module ScoreState.

Definition initial : gmap UserID Z := ∅.

(** [receptors.onCollectItem], the handler given to
    [ItemActions.destroy.receive] (lines 73-77), as the write to the key
    [action.userID]: that is what the handler does for every string that
    indexes a nested state of the hookstate proxy ([plainKey], below, where
    the strings that do not are listed with [deliverAction]). *)
Definition onCollectItem_handler (action : DestroyAction) (state : gmap UserID Z)
  : gmap UserID Z :=
  match state !! destroy_userID action with
  | None => <[destroy_userID action := 1]> state
  | Some val => <[destroy_userID action := val + 1]> state
  end.

Definition onCollectItem (a : Action) (state : gmap UserID Z) : gmap UserID Z :=
  match ItemActions.destroy_matches a with
  | Some action => onCollectItem_handler action state
  | None => state
  end.

(** All receptors of the state, applied to one incoming action. *)
Definition receptors (a : Action) (state : gmap UserID Z) : gmap UserID Z :=
  onCollectItem a state.

(** Modelled from the spec: [currentScore], the read accessor of the
    spec's public contract ("absent key ≡ 0"); the source has no reader. *)
Definition currentScore (state : gmap UserID Z) (u : UserID) : Z :=
  default 0 (state !! u).

End ScoreState.

(** ** The part of the entity-component store the game writes *)

Inductive BodyTypes := Fixed | Dynamic | Kinematic.
Inductive Shapes := Sphere | Capsule | Cylinder | Box | Plane.
Inductive CollisionGroups := Default | Avatars | Ground | Trigger.
Inductive GeometryTypeEnum := BoxGeometry | SphereGeometry | CylinderGeometry.

Record TriggerEntry := mkTrigger {
  onEnter : option string;
  onExit : option string;
  target : EntityUUID
}.

Record ColliderProps := mkCollider {
  shape : Shapes;
  collisionLayer : CollisionGroups;
  collisionMask : CollisionGroups
}.

(** The one callback the game registers: the closure of lines 119-123, which
    captures [props.entityUUID]. *)
Inductive Callback :=
| CollectItemCallback (entityUUID : EntityUUID).

(** The argument of one [setComponent] call.  [TransformComponent] is set
    with a scale only; [ItemComponent] and [ShadowComponent] are set without
    arguments (the engine's defaults). *)
Inductive ComponentArgs :=
| ItemComponent
| VisibleComponent (value : bool)
| RigidBodyComponent (type : BodyTypes)
| NameComponent (name : string)
| TriggerComponent (triggers : list TriggerEntry)
| TransformComponent (scale : Vector3)
| ColliderComponent (props : ColliderProps)
| PrimitiveGeometryComponent (geometryType : GeometryTypeEnum)
| ShadowComponent.

Record Components := mkComponents {
  hasItem : bool;
  visible : option bool;
  rigidBody : option BodyTypes;
  name : option string;
  trigger : option (list TriggerEntry);
  callbacks : gmap string Callback;
  transformScale : option Vector3;
  collider : option ColliderProps;
  primitiveGeometry : option GeometryTypeEnum;
  hasShadow : bool
}.

Definition noComponents : Components :=
  mkComponents false None None None None ∅ None None None false.

Definition writeComponent (a : ComponentArgs) (c : Components) : Components :=
  match c with
  | mkComponents it vi rb na tr cb sc co ge sh =>
    match a with
    | ItemComponent => mkComponents true vi rb na tr cb sc co ge sh
    | VisibleComponent v => mkComponents it (Some v) rb na tr cb sc co ge sh
    | RigidBodyComponent t => mkComponents it vi (Some t) na tr cb sc co ge sh
    | NameComponent n => mkComponents it vi rb (Some n) tr cb sc co ge sh
    | TriggerComponent t => mkComponents it vi rb na (Some t) cb sc co ge sh
    | TransformComponent s => mkComponents it vi rb na tr cb (Some s) co ge sh
    | ColliderComponent p => mkComponents it vi rb na tr cb sc (Some p) ge sh
    | PrimitiveGeometryComponent g => mkComponents it vi rb na tr cb sc co (Some g) sh
    | ShadowComponent => mkComponents it vi rb na tr cb sc co ge true
    end
  end.

Definition writeCallback (key : string) (f : Callback) (c : Components) : Components :=
  match c with
  | mkComponents it vi rb na tr cb sc co ge sh =>
    mkComponents it vi rb na tr (<[key := f]> cb) sc co ge sh
  end.

(** The store: the components of every entity that has any. *)
Definition componentsOf (w : gmap Entity Components) (entity : Entity) : Components :=
  default noComponents (w !! entity).

Definition setComponent (entity : Entity) (a : ComponentArgs) (w : gmap Entity Components)
  : gmap Entity Components :=
  <[entity := writeComponent a (componentsOf w entity)]> w.

Definition setCallback (entity : Entity) (key : string) (f : Callback)
  (w : gmap Entity Components) : gmap Entity Components :=
  <[entity := writeCallback key f (componentsOf w entity)]> w.

(** [itemQuery = defineQuery([ItemComponent])]: the entities that carry
    [ItemComponent]. *)
Definition itemQuery (w : gmap Entity Components) : list Entity :=
  (map_to_list (filter (λ p, hasItem p.2 = true) w)).*1.

(** ** Dispatched actions and the process *)

(** The object literal the spawn system passes to [ItemActions.spawn]: two of
    its fields are values that can be [undefined] in JavaScript. *)
Record SpawnArgs := mkSpawnArgs {
  arg_parentUUID : option EntityUUID;
  arg_entityUUID : EntityUUID;
  arg_color : option string;
  arg_position : Vector3;
  arg_rotation : Quaternion
}.

Inductive Dispatched :=
| DispatchSpawn (args : SpawnArgs)
| DispatchDestroy (args : DestroyAction).

(** The replicated stores of one process and the queue [dispatchAction]
    appends to. *)
Record Process := mkProcess {
  itemState : gmap EntityUUID string;
  scoreState : gmap UserID Z;
  dispatched : list Dispatched
}.

Definition dispatchAction (a : Dispatched) (p : Process) : Process :=
  mkProcess (itemState p) (scoreState p) (dispatched p ++ [a])%list.

(** Modelled from the spec: the action creator [ItemActions.spawn] that
    hyperflux's [defineAction] builds, which is not part of the source
    file.  A SpawnAction has a parent handle and a colour of the fixed set
    (the shape of lines 50-55, over [spawnObject]); the creator checks the
    object literal against the shape and throws when an entry does not
    match, so [None] is the thrown exception. *)
Definition ItemActions_spawn (args : SpawnArgs) : option SpawnAction :=
  match arg_parentUUID args, arg_color args with
  | Some parentUUID, Some color =>
      if bool_decide (color ∈ ValidItemColors)
      then Some (mkSpawn parentUUID (arg_entityUUID args) color
                   (arg_position args) (arg_rotation args))
      else None
  | _, _ => None
  end.

(** How a run of a system ends: it returns, leaving a process, or it is
    left by an exception. *)
Inductive Completion :=
| Returned (p : Process)
| Thrown.

(** ** ItemReactor: configures the entity of one item *)

Module ItemReactor.

(** The [onCollectItem] callback (lines 119-123), without its
    [console.log].  [selfAvatarEntity] is
    [AvatarComponent.getSelfAvatarEntity()] and [userID] is
    [Engine.instance.userID]. *)
Definition onCollectItem (props_entityUUID : EntityUUID)
  (selfAvatarEntity : Entity) (userID : UserID)
  (triggerEntity otherEntity : Entity) (p : Process) : Process :=
  if negb (otherEntity =? selfAvatarEntity)%N then p
  else dispatchAction (DispatchDestroy (mkDestroy props_entityUUID userID)) p.

Definition runCallback (f : Callback) :=
  match f with
  | CollectItemCallback entityUUID => onCollectItem entityUUID
  end.

(** The body of [useImmediateEffect] (lines 109-144). *)
Definition effect (props_entityUUID : EntityUUID) (entity : Entity)
  (w : gmap Entity Components) : gmap Entity Components :=
  if (entity =? UndefinedEntity)%N then w
  else
    let w := setComponent entity ItemComponent w in
    let w := setComponent entity (VisibleComponent true) w in
    let w := setComponent entity (RigidBodyComponent Fixed) w in
    let w := setComponent entity (NameComponent "item") w in
    let w := setComponent entity
               (TriggerComponent [mkTrigger (Some "onCollectItem") None ""]) w in
    let w := setCallback entity "onCollectItem" (CollectItemCallback props_entityUUID) w in
    let colliderEntity := entity in
    let w := setComponent colliderEntity
               (TransformComponent (mkVector3 (1 # 4) (1 # 4) (1 # 4))) w in
    let w := setComponent colliderEntity
               (ColliderComponent (mkCollider Sphere Default Avatars)) w in
    let w := setComponent colliderEntity (PrimitiveGeometryComponent SphereGeometry) w in
    setComponent colliderEntity ShadowComponent w.

(** One render of the component for [props.entityUUID].  [mounted] holds,
    for every instance rendered in the previous pass, the value of the
    effect's dependency [entity] at that pass; the effect runs on mount and
    whenever [entity] has changed.  The result is the store and the effect
    runs performed. *)
Definition render (useEntityByUUID : EntityUUID → Entity)
  (mounted : gmap EntityUUID Entity) (props_entityUUID : EntityUUID)
  (w : gmap Entity Components)
  : gmap Entity Components * list (EntityUUID * Entity) :=
  let entity := useEntityByUUID props_entityUUID in
  match mounted !! props_entityUUID with
  | Some previous =>
      if (previous =? entity)%N then (w, [])
      else (effect props_entityUUID entity w, [(props_entityUUID, entity)])
  | None => (effect props_entityUUID entity w, [(props_entityUUID, entity)])
  end.

End ItemReactor.

(** ** ItemState: the items in the game *)

Module ItemState.

Definition initial : gmap EntityUUID string := ∅.

(** [receptors.onCollectItem], the handler given to
    [ItemActions.spawn.receive] (lines 89-91), as the write to the key
    [action.entityUUID]: that is what the handler does for every string that
    indexes a nested state of the hookstate proxy ([plainKey], below).  It
    is the only receptor of the state. *)
Definition onCollectItem_handler (action : SpawnAction) (state : gmap EntityUUID string)
  : gmap EntityUUID string :=
  <[spawn_entityUUID action := spawn_color action]> state.

Definition onCollectItem (a : Action) (state : gmap EntityUUID string)
  : gmap EntityUUID string :=
  match ItemActions.spawn_matches a with
  | Some action => onCollectItem_handler action state
  | None => state
  end.

Definition receptors (a : Action) (state : gmap EntityUUID string)
  : gmap EntityUUID string :=
  onCollectItem a state.

(** The state of the reactive binder between two passes: the mounted
    [ItemReactor] instances (by React key, with their effect dependency)
    and the entity store. *)
Record Binder := mkBinder {
  mounted : gmap EntityUUID Entity;
  world : gmap Entity Components
}.

Definition renderAll (useEntityByUUID : EntityUUID → Entity)
  (mounted : gmap EntityUUID Entity) (items : list EntityUUID)
  (w : gmap Entity Components)
  : gmap Entity Components * list (EntityUUID * Entity) :=
  foldl (λ acc entityUUID,
           let r := ItemReactor.render useEntityByUUID mounted entityUUID acc.1 in
           (r.1, (acc.2 ++ r.2)%list))
        (w, []) items.

(** [reactor] (lines 94-103): one [ItemReactor] per key of the state.
    Instances whose key is gone are unmounted (the effect has no cleanup).
    The keys are visited in the order of the finite map, where JavaScript
    visits them in insertion order; the order only shows when two handles
    resolve to one entity.  [reactorIn], below, is the pass for a given
    order of the keys. *)
Definition reactor (useEntityByUUID : EntityUUID → Entity)
  (state : gmap EntityUUID string) (b : Binder)
  : Binder * list (EntityUUID * Entity) :=
  let items := (map_to_list state).*1 in
  let r := renderAll useEntityByUUID (mounted b) items (world b) in
  (mkBinder (map_imap (λ entityUUID _, Some (useEntityByUUID entityUUID)) state) r.1,
   r.2).

(** The handles whose mounted instance holds an entity. *)
Definition boundHandles (b : Binder) : gset EntityUUID :=
  dom (filter (λ p, p.2 ≠ UndefinedEntity) (mounted b)).

(** The pass with the keys in a given order: [items] is [.keys] of the
    state, which JavaScript lists in insertion order. *)
Definition reactorIn (items : list EntityUUID) (useEntityByUUID : EntityUUID → Entity)
  (state : gmap EntityUUID string) (b : Binder)
  : Binder * list (EntityUUID * Entity) :=
  let r := renderAll useEntityByUUID (mounted b) items (world b) in
  (mkBinder (map_imap (λ entityUUID _, Some (useEntityByUUID entityUUID)) state) r.1,
   r.2).

(** The Live Entities: the entities of the store that carry
    [ItemComponent], as [itemQuery] lists them. *)
Definition boundEntities (b : Binder) : gset Entity :=
  list_to_set (itemQuery (world b)).

End ItemState.


(** ** Applying one incoming action on a process *)

(** Every state's receptors see every incoming action. *)
Definition applyAction (a : Action) (p : Process) : Process :=
  mkProcess (ItemState.receptors a (itemState p))
            (ScoreState.receptors a (scoreState p))
            (dispatched p).

Definition applyActions (l : list Action) (p : Process) : Process :=
  foldl (λ q a, applyAction a q) p l.

(** ** Indexing a hookstate state with a received string *)

(** The receptors index their state with a string taken from the action
    ([state[action.userID]], [getMutableState(ItemState)[action.entityUUID]]).
    hookstate is not part of the source file.  On a [State] proxy the
    expression reaches the nested state of the key unless the string names a
    member the proxy answers itself (the [State] interface) or one that every
    object inherits from [Object.prototype]; then it is that member, and what
    the handler goes on to do is not the write to a key that the handlers
    above describe ([keys] is an array, on which [.set] raises a TypeError;
    [constructor] is a function with a value of its own).  The handlers
    above are the receptors on every other key. *)
Definition proxyMembers : list string :=
  [ "path"; "keys"; "value"; "ornull"; "promised"; "promise"; "error";
    "get"; "set"; "merge"; "nested"; "batch"; "attach"; "destroy"; "toJSON";
    "constructor"; "__proto__"; "__defineGetter__"; "__defineSetter__";
    "__lookupGetter__"; "__lookupSetter__"; "hasOwnProperty"; "isPrototypeOf";
    "propertyIsEnumerable"; "toLocaleString"; "toString"; "valueOf" ].

(** A string that indexes a nested state. *)
Definition plainKey (key : string) : Prop := key ∉ proxyMembers.

(** The string with which the receptors index a state when the action
    arrives: the handle of a matching spawn, the user of a destroy. *)
Definition indexedKey (a : Action) : option string :=
  match a with
  | SpawnA s =>
      if bool_decide (spawn_color s ∈ ValidItemColors) then Some (spawn_entityUUID s) else None
  | DestroyA d => Some (destroy_userID d)
  | OtherAction _ => None
  end.

Definition plainAction (a : Action) : Prop :=
  ∀ key, indexedKey a = Some key → plainKey key.

(** What applying an action comes to: the stores are written as the
    handlers say, or a receptor has indexed its state with the name of a
    proxy member and the write to a key has not taken place. *)
Inductive Delivery :=
| Applied (p : Process)
| ProxyMember (key : string).

Definition deliverAction (a : Action) (p : Process) : Delivery :=
  match indexedKey a with
  | Some key =>
      if bool_decide (key ∈ proxyMembers) then ProxyMember key
      else Applied (applyAction a p)
  | None => Applied (applyAction a p)
  end.

(** A log, delivered action by action, up to the first proxy member. *)
Fixpoint deliverActions (l : list Action) (p : Process) : Delivery :=
  match l with
  | [] => Applied p
  | a :: l' =>
      match deliverAction a p with
      | Applied p' => deliverActions l' p'
      | ProxyMember key => ProxyMember key
      end
  end.

(** ** ItemSpawnSystem *)

Record Network := mkNetwork { isHosting : bool }.

(** What one execution of the system reads from the engine: the entity store
    queried by [itemQuery], [NetworkState.worldNetwork], the values drawn by
    [Math.random] (for the colour, and inside the two [MathUtils.randFloat]
    calls), [NameComponent.entitiesByName], [getAncestorWithComponents] for
    [SceneComponent] (which answers [UndefinedEntity] when there is no such
    ancestor), [getComponent] for [UUIDComponent] ([undefined] when the
    entity has none), the UUID [UUIDComponent.generateUUID] returns and the
    quaternion [Quaternion.random] yields. *)
Record Env := mkEnv {
  ecs : gmap Entity Components;
  worldNetwork : option Network;
  Math_random : Q;
  entitiesByName : gmap string (list Entity);
  getAncestorWithSceneComponent : Entity → Entity;
  getUUIDComponent : Entity → option EntityUUID;
  generateUUID : EntityUUID;
  randFloat_random : Q * Q;
  Quaternion_random : Quaternion
}.

(** [MathUtils.randFloat(low, high)], on the value [Math.random] drew
    (over the rationals: rounding is not modelled). *)
Definition MathUtils_randFloat (low high r : Q) : Q :=
  (low + r * (high - low))%Q.

Module ItemSpawnSystem.

(** [worldNetwork?.isHosting], as a truth value. *)
Definition hosting (worldNetwork : option Network) : bool :=
  match worldNetwork with
  | Some n => isHosting n
  | None => false
  end.

(** [ValidItemColors[Math.floor(Math.random() * ValidItemColors.length)]] *)
Definition randomColor (r : Q) : option string :=
  let i := Qfloor (r * inject_Z (Z.of_nat (length ValidItemColors)))%Q in
  if (i <? 0)%Z then None else ValidItemColors !! Z.to_nat i.

(** [NameComponent.entitiesByName['platform']?.[0]] *)
Definition platformLookup (entitiesByName : gmap string (list Entity)) : option Entity :=
  entitiesByName !! "platform" ≫= head.

(** [execute] (lines 159-184), with the way it ends.  The argument of
    [dispatchAction] is evaluated first: when the action creator throws,
    [dispatchAction] is not entered and nothing is queued. *)
Definition run (env : Env) (p : Process) : Completion :=
  let itemEntities := itemQuery (ecs env) in
  if negb (length itemEntities =? 0)%nat then Returned p
  else if negb (hosting (worldNetwork env)) then Returned p
  else
    let color := randomColor (Math_random env) in
    match platformLookup (entitiesByName env) with
    | None => Returned p
    | Some platformEntity =>
      if (platformEntity =? UndefinedEntity)%N then Returned p
      else
        let rootSceneEntity := getAncestorWithSceneComponent env platformEntity in
        let parentUUID := getUUIDComponent env rootSceneEntity in
        let args :=
          mkSpawnArgs parentUUID (generateUUID env) color
            (mkVector3 (MathUtils_randFloat (-10) 10 (randFloat_random env).1)
                       (1 # 2)
                       (MathUtils_randFloat (-10) 10 (randFloat_random env).2))
            (Quaternion_random env) in
        match ItemActions_spawn args with
        | Some _ => Returned (dispatchAction (DispatchSpawn args) p)
        | None => Thrown
        end
    end.

(** The process [execute] leaves behind: the one it returns with, or, when
    the run is left by an exception, the process as it was. *)
Definition execute (env : Env) (p : Process) : Process :=
  match run env p with
  | Returned p' => p'
  | Thrown => p
  end.

End ItemSpawnSystem.

(** The object literal [ItemSpawnSystem.execute] hands to the action creator
    for the platform entity it found. *)
Definition spawnArgsOf (env : Env) (platformEntity : Entity) : SpawnArgs :=
  mkSpawnArgs
    (getUUIDComponent env (getAncestorWithSceneComponent env platformEntity))
    (generateUUID env)
    (ItemSpawnSystem.randomColor (Math_random env))
    (mkVector3 (MathUtils_randFloat (-10) 10 (randFloat_random env).1)
               (1 # 2)
               (MathUtils_randFloat (-10) 10 (randFloat_random env).2))
    (Quaternion_random env).

(** The action [ItemSpawnSystem.execute] dispatches when it gets as far as
    dispatching, for the platform entity it found. *)
Definition spawnOf (env : Env) (platformEntity : Entity) : Dispatched :=
  DispatchSpawn
    (mkSpawnArgs
       (getUUIDComponent env (getAncestorWithSceneComponent env platformEntity))
       (generateUUID env)
       (ItemSpawnSystem.randomColor (Math_random env))
       (mkVector3 (MathUtils_randFloat (-10) 10 (randFloat_random env).1)
                  (1 # 2)
                  (MathUtils_randFloat (-10) 10 (randFloat_random env).2))
       (Quaternion_random env)).

(** ** Properties read off an entity's components *)

(** The configuration [ItemReactor] gives the entity of handle [h]. *)
Definition ItemConfigured (h : EntityUUID) (c : Components) : Prop :=
  hasItem c = true
  ∧ visible c = Some true
  ∧ rigidBody c = Some Fixed
  ∧ name c = Some "item"
  ∧ trigger c = Some [mkTrigger (Some "onCollectItem") None ""]
  ∧ callbacks c !! "onCollectItem" = Some (CollectItemCallback h)
  ∧ transformScale c = Some (mkVector3 (1 # 4) (1 # 4) (1 # 4))
  ∧ collider c = Some (mkCollider Sphere Default Avatars)
  ∧ primitiveGeometry c = Some SphereGeometry
  ∧ hasShadow c = true.

(** Every mounted instance that holds an entity has configured it. *)
Definition BinderConfigured (b : ItemState.Binder) : Prop :=
  ∀ h e, ItemState.mounted b !! h = Some e → e ≠ UndefinedEntity →
         ItemConfigured h (componentsOf (ItemState.world b) e).

(** [UUIDComponent] gives distinct handles of the state distinct entities. *)
Definition ResolvesInjectively (useEntityByUUID : EntityUUID → Entity)
  (state : gmap EntityUUID string) : Prop :=
  ∀ h1 h2, is_Some (state !! h1) → is_Some (state !! h2) →
           useEntityByUUID h1 ≠ UndefinedEntity →
           useEntityByUUID h1 = useEntityByUUID h2 → h1 = h2.

(** The number of [ItemActions.destroy] actions of a log that credit [u]. *)
Fixpoint collectedBy (u : UserID) (l : list Action) : Z :=
  match l with
  | [] => 0
  | DestroyA d :: l' =>
      if bool_decide (destroy_userID d = u) then 1 + collectedBy u l' else collectedBy u l'
  | _ :: l' => collectedBy u l'
  end.

(** ** Reading an action log *)

(** The colour the log last recorded for the handle: that of the last spawn
    action of the log that matches the action's shape and carries the
    handle. *)
Fixpoint lastSpawnColor (h : EntityUUID) (l : list Action) : option string :=
  match l with
  | [] => None
  | a :: l' =>
      match lastSpawnColor h l' with
      | Some c => Some c
      | None =>
          match ItemActions.spawn_matches a with
          | Some s => if decide (spawn_entityUUID s = h) then Some (spawn_color s) else None
          | None => None
          end
      end
  end.

(** The components of an entity once [ItemReactor.effect] has run on it for
    the handle [h]: every component the effect sets, over whatever callbacks
    the entity had. *)
Definition itemComponents (h : EntityUUID) (c : Components) : Components :=
  mkComponents true (Some true) (Some Fixed) (Some "item")
    (Some [mkTrigger (Some "onCollectItem") None ""])
    (<["onCollectItem" := CollectItemCallback h]> (callbacks c))
    (Some (mkVector3 (1 # 4) (1 # 4) (1 # 4)))
    (Some (mkCollider Sphere Default Avatars))
    (Some SphereGeometry) true.

(** ** Sample data *)

Definition sampleSpawn : SpawnAction :=
  mkSpawn "scene-root" "H1" "red" (mkVector3 0 (1 # 2) 0) (mkQuaternion 0 0 0 1).

Definition sampleDestroy : DestroyAction := mkDestroy "H1" "U1".

Definition emptyProcess : Process :=
  mkProcess ItemState.initial ScoreState.initial [].

(** The process after the sample spawn has been applied: [{H1: red}]. *)
Definition processWithItem : Process := applyAction (SpawnA sampleSpawn) emptyProcess.

(** A hosting process whose scene holds the platform (entity 5) under the
    scene root (entity 1), and no entity with [ItemComponent]. *)
Definition hostEnv : Env :=
  mkEnv ∅ (Some (mkNetwork true)) (3 # 10)
        {["platform" := [5%N]]}
        (λ _, 1%N)
        (λ e, if (e =? 1)%N then Some "scene-root" else None)
        "H2" (1 # 2, 1 # 4) (mkQuaternion 0 0 0 1).

(** The same on a process that is not hosting. *)
Definition clientEnv : Env :=
  mkEnv ∅ (Some (mkNetwork false)) (3 # 10)
        {["platform" := [5%N]]}
        (λ _, 1%N)
        (λ e, if (e =? 1)%N then Some "scene-root" else None)
        "H2" (1 # 2, 1 # 4) (mkQuaternion 0 0 0 1).

(** A hosting process whose platform has no ancestor with [SceneComponent]:
    [getAncestorWithComponents] answers [UndefinedEntity], which has no
    [UUIDComponent]. *)
Definition rootlessEnv : Env :=
  mkEnv ∅ (Some (mkNetwork true)) (3 # 10)
        {["platform" := [5%N]]}
        (λ _, UndefinedEntity)
        (λ e, if (e =? 1)%N then Some "scene-root" else None)
        "H2" (1 # 2, 1 # 4) (mkQuaternion 0 0 0 1).

(** A hosting process with one item entity (entity 7) in the store. *)
Definition itemEnv : Env :=
  mkEnv (setComponent 7%N ItemComponent ∅) (Some (mkNetwork true)) (3 # 10)
        {["platform" := [5%N]]}
        (λ _, 1%N)
        (λ e, if (e =? 1)%N then Some "scene-root" else None)
        "H2" (1 # 2, 1 # 4) (mkQuaternion 0 0 0 1).

(** The binder before its first pass, on an empty store. *)
Definition freshBinder : ItemState.Binder := ItemState.mkBinder ∅ ∅.

(** [UUIDComponent] knows the entity of [H1] (entity 9) and no other. *)
Definition resolveH1 (entityUUID : EntityUUID) : Entity :=
  if decide (entityUUID = "H1") then 9%N else UndefinedEntity.

(** [UUIDComponent] after the entity of [H1] has been replaced by entity 8. *)
Definition resolveH1Moved (entityUUID : EntityUUID) : Entity :=
  if decide (entityUUID = "H1") then 8%N else UndefinedEntity.

(** [UUIDComponent] knows no entity: every lookup answers [UndefinedEntity]. *)
Definition resolveNone (entityUUID : EntityUUID) : Entity := UndefinedEntity.

(** * Properties of the replicated stores *)

Section Stores.

Implicit Types (state : gmap EntityUUID string) (score : gmap UserID Z).
Implicit Types (a : Action) (d : DestroyAction) (s : SpawnAction) (p : Process).

Lemma ItemState_receptors_destroy d state :
  ItemState.receptors (DestroyA d) state = state.
Proof. reflexivity. Qed.

Lemma ItemState_receptors_other t state :
  ItemState.receptors (OtherAction t) state = state.
Proof. reflexivity. Qed.

Lemma ItemState_receptors_spawn_valid s state :
  spawn_color s ∈ ValidItemColors →
  ItemState.receptors (SpawnA s) state = <[spawn_entityUUID s := spawn_color s]> state.
Proof.
  intros Hc. unfold ItemState.receptors, ItemState.onCollectItem. simpl.
  by rewrite bool_decide_eq_true_2.
Qed.

Lemma ItemState_receptors_spawn_invalid s state :
  spawn_color s ∉ ValidItemColors →
  ItemState.receptors (SpawnA s) state = state.
Proof.
  intros Hc. unfold ItemState.receptors, ItemState.onCollectItem. simpl.
  by rewrite bool_decide_eq_false_2.
Qed.

(** No receptor of [ItemState] ever deletes a key. *)
Lemma ItemState_receptors_keeps_keys a state :
  dom state ⊆ dom (ItemState.receptors a state).
Proof.
  destruct a as [s | d | t]; [| done | done].
  destruct (decide (spawn_color s ∈ ValidItemColors)) as [Hc | Hc].
  - rewrite ItemState_receptors_spawn_valid by done. apply dom_insert_subseteq.
  - by rewrite ItemState_receptors_spawn_invalid.
Qed.

Lemma ScoreState_receptors_destroy d score :
  ScoreState.receptors (DestroyA d) score
  = <[destroy_userID d := ScoreState.currentScore score (destroy_userID d) + 1]> score.
Proof.
  unfold ScoreState.receptors, ScoreState.onCollectItem, ScoreState.onCollectItem_handler,
    ScoreState.currentScore. simpl.
  by destruct (score !! destroy_userID d).
Qed.

Lemma ScoreState_receptors_spawn s score :
  ScoreState.receptors (SpawnA s) score = score.
Proof. reflexivity. Qed.

Lemma ScoreState_receptors_other t score :
  ScoreState.receptors (OtherAction t) score = score.
Proof. reflexivity. Qed.

Lemma currentScore_insert score u v u' :
  ScoreState.currentScore (<[u := v]> score) u'
  = if decide (u = u') then v else ScoreState.currentScore score u'.
Proof.
  unfold ScoreState.currentScore. rewrite lookup_insert.
  by destruct (decide (u = u')).
Qed.

Lemma currentScore_receptors a score u :
  ScoreState.currentScore (ScoreState.receptors a score) u
  = ScoreState.currentScore score u + collectedBy u [a].
Proof.
  destruct a as [s | d | t]; simpl.
  - rewrite ScoreState_receptors_spawn. lia.
  - rewrite ScoreState_receptors_destroy, currentScore_insert.
    destruct (decide (destroy_userID d = u)) as [-> | Hne].
    + rewrite bool_decide_eq_true_2 by done. lia.
    + rewrite bool_decide_eq_false_2 by done. lia.
  - rewrite ScoreState_receptors_other. lia.
Qed.


Lemma collectedBy_app u (l1 l2 : list Action) :
  collectedBy u (l1 ++ l2) = collectedBy u l1 + collectedBy u l2.
Proof.
  induction l1 as [| a l1 IH]; simpl; [lia |].
  destruct a as [s | d | t]; try done.
  case_bool_decide; lia.
Qed.

Lemma collectedBy_nonneg (u : UserID) (l : list Action) : (0 ≤ collectedBy u l)%Z.
Proof.
  induction l as [| a l IH]; simpl; [lia |].
  destruct a as [s | d | t]; try done.
  case_bool_decide; lia.
Qed.

Lemma applyActions_snoc (l : list Action) a p :
  applyActions (l ++ [a]) p = applyAction a (applyActions l p).
Proof. unfold applyActions. by rewrite foldl_snoc. Qed.

Lemma applyActions_dispatched (l : list Action) p :
  dispatched (applyActions l p) = dispatched p.
Proof.
  induction l as [| a l IH] using rev_ind; [done |].
  by rewrite applyActions_snoc.
Qed.

Lemma currentScore_applyActions (l : list Action) p u :
  ScoreState.currentScore (scoreState (applyActions l p)) u
  = ScoreState.currentScore (scoreState p) u + collectedBy u l.
Proof.
  induction l as [| a l IH] using rev_ind; [simpl; lia |].
  rewrite applyActions_snoc, collectedBy_app. simpl scoreState.
  rewrite currentScore_receptors, IH. lia.
Qed.


Lemma itemState_applyActions_keeps_keys (l : list Action) p :
  dom (itemState p) ⊆ dom (itemState (applyActions l p)).
Proof.
  induction l as [| a l IH] using rev_ind; [done |].
  rewrite applyActions_snoc. simpl itemState.
  etrans; [exact IH | apply ItemState_receptors_keeps_keys].
Qed.

Lemma itemState_processWithItem : itemState processWithItem = {["H1" := "red"]}.
Proof.
  unfold processWithItem, applyAction. simpl itemState.
  rewrite ItemState_receptors_spawn_valid.
  - reflexivity.
  - apply (bool_decide_eq_true_1 (spawn_color sampleSpawn ∈ ValidItemColors)).
    reflexivity.
Qed.

Lemma plainAction_destroy d : plainKey (destroy_userID d) → plainAction (DestroyA d).
Proof. intros Hd key [= <-]. exact Hd. Qed.

Lemma plainAction_spawn s : plainKey (spawn_entityUUID s) → plainAction (SpawnA s).
Proof.
  intros Hs key. simpl. case_bool_decide; [| done]. intros [= <-]. exact Hs.
Qed.

(** On plain keys, delivering an action is applying it. *)
Lemma deliverAction_plain a p :
  plainAction a → deliverAction a p = Applied (applyAction a p).
Proof.
  intros Ha. unfold deliverAction.
  destruct (indexedKey a) as [key |] eqn:Hkey; [| done].
  rewrite bool_decide_eq_false_2; [done |]. by apply Ha.
Qed.


Lemma deliverActions_plain (l : list Action) p :
  Forall plainAction l → deliverActions l p = Applied (applyActions l p).
Proof.
  intros Hl. revert p. induction Hl as [| a l Ha _ IH]; intros p; [done |].
  simpl. rewrite deliverAction_plain by done. apply IH.
Qed.

End Stores.

(** ** Claims on the stores *)

(** C1: [ItemState] has a single receptor, and it receives
    [ItemActions.spawn]; a destroy action reaches no receptor of the state.
    At [{H1: red}], applying [destroy {H1, U1}] leaves the entry of [H1] in
    place, although the state is documented to hold the active items. *)
Theorem C1_destroy_leaves_entry :
  itemState processWithItem !! "H1" = Some "red"
  ∧ itemState (applyAction (DestroyA sampleDestroy) processWithItem) !! "H1" = Some "red".
Proof.
  change (itemState (applyAction (DestroyA sampleDestroy) processWithItem))
    with (ItemState.receptors (DestroyA sampleDestroy) (itemState processWithItem)).
  rewrite ItemState_receptors_destroy, itemState_processWithItem.
  split; apply lookup_singleton_eq.
Qed.

(** C3, as stated, fails: with [H1] absent from [ItemState], applying
    [destroy {H1, U1}] writes [ScoreState]. *)
Lemma C3_stale_destroy_scores :
  itemState emptyProcess !! destroy_entityUUID sampleDestroy = None
  ∧ scoreState (applyAction (DestroyA sampleDestroy) emptyProcess) !! "U1" = Some 1%Z
  ∧ scoreState (applyAction (DestroyA sampleDestroy) emptyProcess) ≠ scoreState emptyProcess.
Proof.
  assert (scoreState (applyAction (DestroyA sampleDestroy) emptyProcess) !! "U1" = Some 1%Z)
    as Hone.
  { simpl scoreState. rewrite ScoreState_receptors_destroy. simpl destroy_userID.
    rewrite lookup_insert_eq. reflexivity. }
  split; [apply lookup_empty |]. split; [exact Hone |].
  intros Heq. rewrite Heq in Hone. simpl in Hone.
  unfold ScoreState.initial in Hone. by rewrite lookup_empty in Hone.
Qed.

(** C3, amended: applying a destroy action whose handle is absent from
    [ItemState], and whose user is a plain key of the score store (not the
    name of a member of the state proxy), is applied without an error,
    leaves [ItemState] and the dispatch queue unchanged, and still credits
    the action's user with one more item: the score receptor does not
    consult [ItemState]. *)
Theorem C3_stale_destroy (p : Process) (d : DestroyAction)
  (Habsent : itemState p !! destroy_entityUUID d = None)
  (Hplain : plainKey (destroy_userID d)) :
  deliverAction (DestroyA d) p = Applied (applyAction (DestroyA d) p)
  ∧ itemState (applyAction (DestroyA d) p) = itemState p
  ∧ dispatched (applyAction (DestroyA d) p) = dispatched p
  ∧ scoreState (applyAction (DestroyA d) p)
    = <[destroy_userID d := (ScoreState.currentScore (scoreState p) (destroy_userID d) + 1)%Z]>
        (scoreState p).
Proof.
  split; [by apply deliverAction_plain, plainAction_destroy |].
  split; [reflexivity |]. split; [reflexivity |].
  simpl scoreState. apply ScoreState_receptors_destroy.
Qed.

Lemma C3_stale_destroy_witness :
  deliverAction (DestroyA sampleDestroy) emptyProcess
  = Applied (applyAction (DestroyA sampleDestroy) emptyProcess)
  ∧ itemState (applyAction (DestroyA sampleDestroy) emptyProcess) = itemState emptyProcess
  ∧ dispatched (applyAction (DestroyA sampleDestroy) emptyProcess) = dispatched emptyProcess
  ∧ scoreState (applyAction (DestroyA sampleDestroy) emptyProcess)
    = <[destroy_userID sampleDestroy :=
          (ScoreState.currentScore (scoreState emptyProcess) (destroy_userID sampleDestroy) + 1)%Z]>
        (scoreState emptyProcess).
Proof.
  apply (C3_stale_destroy emptyProcess sampleDestroy).
  - apply lookup_empty.
  - apply (bool_decide_eq_false_1 ("U1" ∈ proxyMembers)). reflexivity.
Defined.




(** C10: a spawn action whose colour is not one of [ValidItemColors] does
    not match the action's shape, so no receptor runs on it: applying it
    leaves the whole process as it was (and applying is a total function:
    nothing fails). *)
Theorem C10_invalid_colour_rejected (s : SpawnAction) (p : Process)
  (Hcolour : spawn_color s ∉ ValidItemColors) :
  ItemActions.spawn_matches (SpawnA s) = None
  ∧ applyAction (SpawnA s) p = p.
Proof.
  split.
  - simpl. by rewrite bool_decide_eq_false_2.
  - unfold applyAction. rewrite ItemState_receptors_spawn_invalid by done.
    rewrite ScoreState_receptors_spawn. by destruct p.
Qed.

Lemma C10_invalid_colour_rejected_witness :
  ItemActions.spawn_matches
    (SpawnA (mkSpawn "scene-root" "H2" "white" (mkVector3 0 (1 # 2) 0) (mkQuaternion 0 0 0 1)))
  = None
  ∧ applyAction
      (SpawnA (mkSpawn "scene-root" "H2" "white" (mkVector3 0 (1 # 2) 0) (mkQuaternion 0 0 0 1)))
      processWithItem
    = processWithItem.
Proof.
  apply (C10_invalid_colour_rejected
           (mkSpawn "scene-root" "H2" "white" (mkVector3 0 (1 # 2) 0) (mkQuaternion 0 0 0 1))
           processWithItem).
  apply (bool_decide_eq_false_1 ("white" ∈ ValidItemColors)). reflexivity.
Defined.

(** * Properties of the spawn system *)

Section SpawnSystem.

Implicit Types (env : Env) (p : Process).

Lemma run_item_exists env p :
  itemQuery (ecs env) ≠ [] → ItemSpawnSystem.run env p = Returned p.
Proof.
  intros Hq. unfold ItemSpawnSystem.run.
  destruct (itemQuery (ecs env)); [done | reflexivity].
Qed.

Lemma run_not_hosting env p :
  ItemSpawnSystem.hosting (worldNetwork env) = false →
  ItemSpawnSystem.run env p = Returned p.
Proof.
  intros Hh. unfold ItemSpawnSystem.run. rewrite Hh.
  by destruct (negb _).
Qed.

Lemma run_no_platform env p :
  ItemSpawnSystem.platformLookup (entitiesByName env) = None →
  ItemSpawnSystem.run env p = Returned p.
Proof.
  intros Hp. unfold ItemSpawnSystem.run. rewrite Hp.
  by repeat destruct (negb _).
Qed.

Lemma run_undefined_platform env p :
  ItemSpawnSystem.platformLookup (entitiesByName env) = Some UndefinedEntity →
  ItemSpawnSystem.run env p = Returned p.
Proof.
  intros Hp. unfold ItemSpawnSystem.run. rewrite Hp.
  by repeat destruct (negb _).
Qed.

(** Past the guards, the run ends as the action creator decides. *)
Lemma run_past_guards env p platformEntity :
  itemQuery (ecs env) = [] →
  ItemSpawnSystem.hosting (worldNetwork env) = true →
  ItemSpawnSystem.platformLookup (entitiesByName env) = Some platformEntity →
  platformEntity ≠ UndefinedEntity →
  ItemSpawnSystem.run env p
  = match ItemActions_spawn (spawnArgsOf env platformEntity) with
    | Some _ => Returned (dispatchAction (spawnOf env platformEntity) p)
    | None => Thrown
    end.
Proof.
  intros Hq Hh Hp Hne. unfold ItemSpawnSystem.run.
  rewrite Hq, Hh, Hp. simpl.
  destruct (N.eqb_spec platformEntity UndefinedEntity); [done | reflexivity].
Qed.

Lemma execute_item_exists env p :
  itemQuery (ecs env) ≠ [] → ItemSpawnSystem.execute env p = p.
Proof. intros Hq. unfold ItemSpawnSystem.execute. by rewrite run_item_exists. Qed.

Lemma execute_not_hosting env p :
  ItemSpawnSystem.hosting (worldNetwork env) = false → ItemSpawnSystem.execute env p = p.
Proof. intros Hh. unfold ItemSpawnSystem.execute. by rewrite run_not_hosting. Qed.

Lemma execute_no_platform env p :
  ItemSpawnSystem.platformLookup (entitiesByName env) = None →
  ItemSpawnSystem.execute env p = p.
Proof. intros Hp. unfold ItemSpawnSystem.execute. by rewrite run_no_platform. Qed.

Lemma execute_undefined_platform env p :
  ItemSpawnSystem.platformLookup (entitiesByName env) = Some UndefinedEntity →
  ItemSpawnSystem.execute env p = p.
Proof. intros Hp. unfold ItemSpawnSystem.execute. by rewrite run_undefined_platform. Qed.

(** The one path on which [execute] dispatches. *)
Lemma execute_dispatches env p platformEntity :
  itemQuery (ecs env) = [] →
  ItemSpawnSystem.hosting (worldNetwork env) = true →
  ItemSpawnSystem.platformLookup (entitiesByName env) = Some platformEntity →
  platformEntity ≠ UndefinedEntity →
  is_Some (ItemActions_spawn (spawnArgsOf env platformEntity)) →
  ItemSpawnSystem.execute env p = dispatchAction (spawnOf env platformEntity) p.
Proof.
  intros Hq Hh Hp Hne [action Hc]. unfold ItemSpawnSystem.execute.
  by rewrite (run_past_guards env p platformEntity), Hc.
Qed.

(** The path on which the action creator throws: nothing is queued. *)
Lemma execute_thrown env p platformEntity :
  itemQuery (ecs env) = [] →
  ItemSpawnSystem.hosting (worldNetwork env) = true →
  ItemSpawnSystem.platformLookup (entitiesByName env) = Some platformEntity →
  platformEntity ≠ UndefinedEntity →
  ItemActions_spawn (spawnArgsOf env platformEntity) = None →
  ItemSpawnSystem.run env p = Thrown ∧ ItemSpawnSystem.execute env p = p.
Proof.
  intros Hq Hh Hp Hne Hc. unfold ItemSpawnSystem.execute.
  by rewrite (run_past_guards env p platformEntity), Hc.
Qed.

(** [execute] leaves the process alone or dispatches exactly one action. *)
Lemma execute_cases env p :
  ItemSpawnSystem.execute env p = p
  ∨ ∃ a, ItemSpawnSystem.execute env p = dispatchAction a p
         ∧ itemQuery (ecs env) = []
         ∧ ItemSpawnSystem.hosting (worldNetwork env) = true.
Proof.
  destruct (itemQuery (ecs env)) as [| e l] eqn:Hq;
    [| left; apply execute_item_exists; by rewrite Hq].
  destruct (ItemSpawnSystem.hosting (worldNetwork env)) eqn:Hh;
    [| left; by apply execute_not_hosting].
  destruct (ItemSpawnSystem.platformLookup (entitiesByName env)) as [pe |] eqn:Hp;
    [| left; by apply execute_no_platform].
  destruct (decide (pe = UndefinedEntity)) as [-> | Hne];
    [left; by apply execute_undefined_platform |].
  destruct (ItemActions_spawn (spawnArgsOf env pe)) as [action |] eqn:Hc.
  - right. exists (spawnOf env pe). split; [| done].
    apply execute_dispatches; [done | done | done | done | rewrite Hc; by eexists].
  - left. by apply (execute_thrown env p pe).
Qed.

Lemma dispatchAction_changes a p : dispatchAction a p ≠ p.
Proof.
  intros Heq. apply (f_equal (λ q, length (dispatched q))) in Heq.
  simpl in Heq. rewrite length_app in Heq. simpl in Heq. lia.
Qed.

Lemma itemQuery_empty : itemQuery ∅ = [].
Proof. unfold itemQuery. by rewrite map_filter_empty, map_to_list_empty. Qed.

Lemma itemQuery_tagged (w : gmap Entity Components) (e : Entity) :
  hasItem (componentsOf w e) = true → itemQuery w ≠ [].
Proof.
  intros Ht Hq. unfold componentsOf in Ht.
  destruct (w !! e) as [c |] eqn:Hw; [| done].
  assert (filter (λ q : Entity * Components, hasItem q.2 = true) w !! e = Some c) as Hf.
  { apply map_lookup_filter_Some. done. }
  apply elem_of_map_to_list in Hf.
  unfold itemQuery in Hq. apply fmap_nil_inv in Hq. rewrite Hq in Hf.
  by apply elem_of_nil in Hf.
Qed.

End SpawnSystem.

(** ** Claims on the spawn system and the collect callback *)

(** C5, as stated, fails: the system does not read [ItemState].  With the
    item [H1] live in [ItemState] and no entity carrying [ItemComponent] in
    the store (the entity of [H1] is not there to be queried), the hosting
    process dispatches another spawn. *)
Lemma C5_spawns_despite_ItemState :
  itemState processWithItem !! "H1" = Some "red"
  ∧ itemQuery (ecs hostEnv) = []
  ∧ ItemSpawnSystem.execute hostEnv processWithItem
    = dispatchAction (spawnOf hostEnv 5%N) processWithItem
  ∧ ItemSpawnSystem.execute hostEnv processWithItem ≠ processWithItem.
Proof.
  assert (ItemSpawnSystem.execute hostEnv processWithItem
          = dispatchAction (spawnOf hostEnv 5%N) processWithItem) as Hx.
  { apply execute_dispatches.
    - apply itemQuery_empty.
    - reflexivity.
    - reflexivity.
    - discriminate.
    - eexists. reflexivity. }
  split; [| split; [apply itemQuery_empty | split; [exact Hx |]]].
  - rewrite itemState_processWithItem. apply lookup_singleton_eq.
  - rewrite Hx. apply dispatchAction_changes.
Qed.

(** C5, amended: whenever the spawn system runs while at least one entity
    carrying [ItemComponent] exists (the answer of [itemQuery]), it
    dispatches nothing and leaves the process unchanged; and one run never
    dispatches more than one action. *)
Theorem C5_no_spawn_while_item_entity (env : Env) (p : Process)
  (Hitem : itemQuery (ecs env) ≠ []) :
  ItemSpawnSystem.execute env p = p
  ∧ ∀ env' : Env,
      (length (dispatched (ItemSpawnSystem.execute env' p)) ≤ length (dispatched p) + 1)%nat.
Proof.
  split; [by apply execute_item_exists |].
  intros env'. destruct (execute_cases env' p) as [-> | (a & -> & _)].
  - lia.
  - simpl. rewrite length_app. simpl. lia.
Qed.

Lemma C5_no_spawn_while_item_entity_witness :
  ItemSpawnSystem.execute itemEnv emptyProcess = emptyProcess.
Proof.
  apply (C5_no_spawn_while_item_entity itemEnv emptyProcess).
  apply (itemQuery_tagged _ 7%N). reflexivity.
Defined.

(** C6: on a process that is not hosting ([worldNetwork] undefined, or
    [isHosting] false) one run of the spawn system returns the process as it
    was: nothing is dispatched and neither store changes.  Conversely a run
    that changes anything, in particular one that dispatches a spawn,
    happens on the hosting process. *)
Theorem C6_only_host_spawns (env : Env) (p : Process) :
  (ItemSpawnSystem.hosting (worldNetwork env) = false → ItemSpawnSystem.execute env p = p)
  ∧ (ItemSpawnSystem.execute env p ≠ p → ItemSpawnSystem.hosting (worldNetwork env) = true)
  ∧ itemState (ItemSpawnSystem.execute env p) = itemState p
  ∧ scoreState (ItemSpawnSystem.execute env p) = scoreState p.
Proof.
  destruct (execute_cases env p) as [Heq | (a & Heq & _ & Hh)].
  - rewrite Heq. split; [done |]. split; [intros Hne; contradiction | done].
  - split; [intros Hf; congruence |]. split; [intros _; exact Hh |].
    rewrite Heq. done.
Qed.

Lemma C6_only_host_spawns_witness :
  ItemSpawnSystem.execute clientEnv processWithItem = processWithItem.
Proof.
  apply (C6_only_host_spawns clientEnv processWithItem). reflexivity.
Defined.

(** Whatever the platform, a scene root without [UUIDComponent] makes the
    action creator throw. *)
Lemma run_missing_root (env : Env) (p : Process) (platformEntity : Entity) :
  itemQuery (ecs env) = [] →
  ItemSpawnSystem.hosting (worldNetwork env) = true →
  ItemSpawnSystem.platformLookup (entitiesByName env) = Some platformEntity →
  platformEntity ≠ UndefinedEntity →
  getUUIDComponent env (getAncestorWithSceneComponent env platformEntity) = None →
  ItemSpawnSystem.run env p = Thrown ∧ ItemSpawnSystem.execute env p = p.
Proof.
  intros Hq Hh Hp Hne Hroot. apply (execute_thrown env p platformEntity); try done.
  unfold ItemActions_spawn, spawnArgsOf. simpl. by rewrite Hroot.
Qed.

(** C7: the lookup of the platform is guarded, the walk up to the scene
    root is not.  On a hosting process whose platform (entity 5) has no
    ancestor with [SceneComponent], [getAncestorWithComponents] answers
    [UndefinedEntity], [getComponent] answers [undefined], and the run goes
    on to build the spawn action with an undefined [parentUUID]: the action
    creator throws, so the run is left by an exception instead of returning
    as it does when the platform is missing (nothing is queued). *)
Theorem C7_missing_root_not_skipped :
  ItemSpawnSystem.platformLookup (entitiesByName rootlessEnv) = Some 5%N
  ∧ getAncestorWithSceneComponent rootlessEnv 5%N = UndefinedEntity
  ∧ arg_parentUUID (spawnArgsOf rootlessEnv 5%N) = None
  ∧ ItemActions_spawn (spawnArgsOf rootlessEnv 5%N) = None
  ∧ ItemSpawnSystem.run rootlessEnv emptyProcess = Thrown
  ∧ ItemSpawnSystem.run rootlessEnv emptyProcess ≠ Returned emptyProcess
  ∧ dispatched (ItemSpawnSystem.execute rootlessEnv emptyProcess) = [].
Proof.
  destruct (run_missing_root rootlessEnv emptyProcess 5%N) as [Hrun Hexec].
  - apply itemQuery_empty.
  - reflexivity.
  - reflexivity.
  - discriminate.
  - reflexivity.
  - rewrite Hrun, Hexec. repeat split; try reflexivity. discriminate.
Qed.

(** C9: the collect callback of the item with handle [h].  When the
    overlapping entity is not the local avatar entity the process is left
    as it was, so nothing is dispatched; when it is, exactly one action is
    appended to the dispatch queue, the destroy action carrying [h] and the
    local user's identity, and the stores are untouched. *)
Theorem C9_collect_gated (h : EntityUUID) (selfAvatarEntity : Entity) (userID : UserID)
  (triggerEntity otherEntity : Entity) (p : Process) :
  (otherEntity ≠ selfAvatarEntity →
   ItemReactor.onCollectItem h selfAvatarEntity userID triggerEntity otherEntity p = p)
  ∧ (otherEntity = selfAvatarEntity →
     dispatched (ItemReactor.onCollectItem h selfAvatarEntity userID triggerEntity otherEntity p)
     = (dispatched p ++ [DispatchDestroy (mkDestroy h userID)])%list
     ∧ itemState (ItemReactor.onCollectItem h selfAvatarEntity userID triggerEntity otherEntity p)
       = itemState p
     ∧ scoreState (ItemReactor.onCollectItem h selfAvatarEntity userID triggerEntity otherEntity p)
       = scoreState p).
Proof.
  unfold ItemReactor.onCollectItem.
  destruct (N.eqb_spec otherEntity selfAvatarEntity) as [Heq | Hne]; simpl.
  - split; [intros Hne; contradiction | intros _; done].
  - split; [done | intros Heq; contradiction].
Qed.

Lemma C9_collect_gated_witness :
  ItemReactor.onCollectItem "H1" 3%N "U1" 7%N 4%N processWithItem = processWithItem
  ∧ dispatched (ItemReactor.onCollectItem "H1" 3%N "U1" 7%N 3%N processWithItem)
    = (dispatched processWithItem ++ [DispatchDestroy (mkDestroy "H1" "U1")])%list.
Proof.
  split.
  - apply (C9_collect_gated "H1" 3%N "U1" 7%N 4%N processWithItem). discriminate.
  - apply (C9_collect_gated "H1" 3%N "U1" 7%N 3%N processWithItem). reflexivity.
Defined.

(** * Properties of the reactive binder *)

Section Binder.

Variable useEntityByUUID : EntityUUID → Entity.

Implicit Types (w : gmap Entity Components) (M : gmap EntityUUID Entity).
Implicit Types (h k : EntityUUID) (e : Entity) (state : gmap EntityUUID string).

Lemma componentsOf_setComponent_eq e a w :
  componentsOf (setComponent e a w) e = writeComponent a (componentsOf w e).
Proof. unfold setComponent, componentsOf at 1. by rewrite lookup_insert_eq. Qed.

Lemma componentsOf_setComponent_ne e e' a w :
  e ≠ e' → componentsOf (setComponent e a w) e' = componentsOf w e'.
Proof. intros Hne. unfold setComponent, componentsOf. by rewrite lookup_insert_ne. Qed.

Lemma componentsOf_setCallback_eq e key f w :
  componentsOf (setCallback e key f w) e = writeCallback key f (componentsOf w e).
Proof. unfold setCallback, componentsOf at 1. by rewrite lookup_insert_eq. Qed.

Lemma componentsOf_setCallback_ne e e' key f w :
  e ≠ e' → componentsOf (setCallback e key f w) e' = componentsOf w e'.
Proof. intros Hne. unfold setCallback, componentsOf. by rewrite lookup_insert_ne. Qed.

Lemma effect_undefined h w : ItemReactor.effect h UndefinedEntity w = w.
Proof. reflexivity. Qed.

Lemma effect_other h e e' w :
  e ≠ e' → componentsOf (ItemReactor.effect h e w) e' = componentsOf w e'.
Proof.
  intros Hne. unfold ItemReactor.effect.
  destruct (e =? UndefinedEntity)%N; [done |]. cbv zeta.
  repeat first [ rewrite componentsOf_setComponent_ne by done
               | rewrite componentsOf_setCallback_ne by done ].
  reflexivity.
Qed.

Lemma effect_configures h e w :
  e ≠ UndefinedEntity → ItemConfigured h (componentsOf (ItemReactor.effect h e w) e).
Proof.
  intros Hne. unfold ItemReactor.effect.
  destruct (N.eqb_spec e UndefinedEntity) as [| _]; [done |]. cbv zeta.
  rewrite !componentsOf_setComponent_eq, componentsOf_setCallback_eq,
    !componentsOf_setComponent_eq.
  destruct (componentsOf w e). unfold ItemConfigured. simpl.
  repeat split; try reflexivity. apply lookup_insert_eq.
Qed.

(** What a render does to the store, by the state of the dependency. *)
Lemma render_unchanged M k w :
  M !! k = Some (useEntityByUUID k) →
  ItemReactor.render useEntityByUUID M k w = (w, []).
Proof.
  intros HM. unfold ItemReactor.render. rewrite HM.
  by rewrite N.eqb_refl.
Qed.

Lemma render_effect M k w :
  M !! k ≠ Some (useEntityByUUID k) →
  ItemReactor.render useEntityByUUID M k w
  = (ItemReactor.effect k (useEntityByUUID k) w, [(k, useEntityByUUID k)]).
Proof.
  intros HM. unfold ItemReactor.render.
  destruct (M !! k) as [previous |]; [| done].
  destruct (N.eqb_spec previous (useEntityByUUID k)) as [-> | _]; [done | reflexivity].
Qed.

Lemma renderAll_snoc M (items : list EntityUUID) k w :
  ItemState.renderAll useEntityByUUID M (items ++ [k]) w
  = ((ItemReactor.render useEntityByUUID M k
        (ItemState.renderAll useEntityByUUID M items w).1).1,
     ((ItemState.renderAll useEntityByUUID M items w).2
      ++ (ItemReactor.render useEntityByUUID M k
            (ItemState.renderAll useEntityByUUID M items w).1).2)%list).
Proof. unfold ItemState.renderAll. by rewrite foldl_snoc. Qed.

(** Rendering instances whose dependency has not changed runs no effect. *)
Lemma renderAll_unchanged M (items : list EntityUUID) w :
  (∀ k, k ∈ items → M !! k = Some (useEntityByUUID k)) →
  ItemState.renderAll useEntityByUUID M items w = (w, []).
Proof.
  induction items as [| k items IH] using rev_ind; intros HM; [done |].
  rewrite renderAll_snoc, IH.
  - simpl. rewrite render_unchanged; [done |]. apply HM. set_solver.
  - intros k' Hk'. apply HM. set_solver.
Qed.

Lemma elem_of_keys state h :
  h ∈ (map_to_list state).*1 ↔ is_Some (state !! h).
Proof.
  rewrite list_elem_of_fmap. split.
  - intros ([k c] & -> & Hin). apply elem_of_map_to_list in Hin. by eexists.
  - intros [c Hc]. exists (h, c). split; [done |]. by apply elem_of_map_to_list.
Qed.

Lemma mounted_reactor state (b : ItemState.Binder) h :
  ItemState.mounted (ItemState.reactor useEntityByUUID state b).1 !! h
  = (λ _, useEntityByUUID h) <$> state !! h.
Proof.
  unfold ItemState.reactor. simpl. rewrite map_lookup_imap.
  by destruct (state !! h).
Qed.

Lemma boundHandles_reactor state (b : ItemState.Binder) :
  ItemState.boundHandles (ItemState.reactor useEntityByUUID state b).1
  = filter (λ h, useEntityByUUID h ≠ UndefinedEntity) (dom state).
Proof.
  apply set_eq. intros h. unfold ItemState.boundHandles.
  rewrite elem_of_dom, elem_of_filter, elem_of_dom. split.
  - intros [e He]. apply map_lookup_filter_Some in He as [He Hne]. simpl in Hne.
    rewrite mounted_reactor in He.
    destruct (state !! h) as [c |]; [| done]. simpl in He.
    injection He as <-. split; [done | by eexists].
  - intros [Hne [c Hc]]. exists (useEntityByUUID h).
    apply map_lookup_filter_Some. split; [| done].
    rewrite mounted_reactor, Hc. reflexivity.
Qed.

Lemma dom_mounted_reactor state (b : ItemState.Binder) :
  dom (ItemState.mounted (ItemState.reactor useEntityByUUID state b).1) = dom state.
Proof.
  apply set_eq. intros h. rewrite !elem_of_dom, mounted_reactor.
  by rewrite fmap_is_Some.
Qed.

(** A second pass over the same state, with the same resolution, runs no
    effect and changes nothing. *)
Lemma reactor_stable state (b : ItemState.Binder) :
  ItemState.reactor useEntityByUUID state (ItemState.reactor useEntityByUUID state b).1
  = ((ItemState.reactor useEntityByUUID state b).1, []).
Proof.
  set (b' := (ItemState.reactor useEntityByUUID state b).1).
  unfold ItemState.reactor at 1.
  rewrite renderAll_unchanged.
  - reflexivity.
  - intros k Hk. apply elem_of_keys in Hk as [c Hc].
    unfold b'. rewrite mounted_reactor, Hc. reflexivity.
Qed.

End Binder.

Section BinderConfiguration.

Variable useEntityByUUID : EntityUUID → Entity.
Variable state : gmap EntityUUID string.
Hypothesis Hinjective : ResolvesInjectively useEntityByUUID state.

Implicit Types (w : gmap Entity Components) (M : gmap EntityUUID Entity).
Implicit Types (h k : EntityUUID) (e : Entity).

Lemma renderAll_configures M w (items : list EntityUUID) :
  BinderConfigured (ItemState.mkBinder M w) →
  (∀ k, k ∈ items → is_Some (state !! k)) →
  ∀ h, is_Some (state !! h) →
       useEntityByUUID h ≠ UndefinedEntity →
       h ∈ items ∨ M !! h = Some (useEntityByUUID h) →
       ItemConfigured h
         (componentsOf (ItemState.renderAll useEntityByUUID M items w).1 (useEntityByUUID h)).
Proof.
  intros Hb. induction items as [| k items IH] using rev_ind; intros Hitems h Hh He Hcase.
  - destruct Hcase as [Hin | HM]; [by apply elem_of_nil in Hin |].
    by apply (Hb h (useEntityByUUID h)).
  - assert (∀ k', k' ∈ items → is_Some (state !! k')) as Hitems'.
    { intros k' Hk'. apply Hitems, elem_of_app. by left. }
    rewrite renderAll_snoc. simpl fst.
    destruct (decide (M !! k = Some (useEntityByUUID k))) as [HM | HM].
    + rewrite render_unchanged by done. simpl fst.
      apply IH; [done | done | done |].
      destruct Hcase as [Hin | HM']; [| by right].
      apply elem_of_app in Hin as [Hin | Hin]; [by left |].
      apply list_elem_of_singleton in Hin as ->. by right.
    + rewrite render_effect by done. simpl fst.
      destruct (decide (h = k)) as [-> | Hhk]; [by apply effect_configures |].
      rewrite effect_other.
      * apply IH; [done | done | done |].
        destruct Hcase as [Hin | HM']; [| by right].
        apply elem_of_app in Hin as [Hin | Hin]; [by left |].
        by apply list_elem_of_singleton in Hin.
      * intros Heq. apply Hhk. apply Hinjective; [done | | done | done].
        apply Hitems, elem_of_app. right. by apply list_elem_of_singleton.
Qed.

(** The invariant of the binder is kept by every pass. *)
Lemma reactor_configures (b : ItemState.Binder) :
  BinderConfigured b →
  BinderConfigured (ItemState.reactor useEntityByUUID state b).1.
Proof.
  intros Hb h e HM He. rewrite mounted_reactor in HM.
  destruct (state !! h) as [c |] eqn:Hc; [| done]. simpl in HM. injection HM as <-.
  unfold ItemState.reactor. simpl.
  apply renderAll_configures.
  - by destruct b.
  - intros k Hk. by apply elem_of_keys.
  - by eexists.
  - done.
  - left. apply elem_of_keys. by eexists.
Qed.

End BinderConfiguration.

Lemma BinderConfigured_unmounted (w : gmap Entity Components) :
  BinderConfigured (ItemState.mkBinder ∅ w).
Proof. intros h e HM. simpl in HM. by rewrite lookup_empty in HM. Qed.

Lemma resolveH1_injective (state : gmap EntityUUID string) :
  ResolvesInjectively resolveH1 state.
Proof.
  intros h1 h2 _ _ Hne Heq. unfold resolveH1 in *.
  destruct (decide (h1 = "H1")) as [-> | ?]; [| done].
  destruct (decide (h2 = "H1")) as [-> | ?]; [done | discriminate].
Qed.

(** ** The Live Entities of a pass *)

Section LiveEntities.

Variable useEntityByUUID : EntityUUID → Entity.

Implicit Types (w : gmap Entity Components) (M : gmap EntityUUID Entity).
Implicit Types (h k : EntityUUID) (e : Entity) (state : gmap EntityUUID string).

Lemma elem_of_itemQuery w e :
  e ∈ itemQuery w ↔ hasItem (componentsOf w e) = true.
Proof.
  unfold itemQuery, componentsOf. rewrite list_elem_of_fmap. split.
  - intros ([e' c] & -> & Hin). apply elem_of_map_to_list in Hin.
    apply map_lookup_filter_Some in Hin as [Hw Hc]. simpl in *. by rewrite Hw.
  - intros Ht. destruct (w !! e) as [c |] eqn:Hw; [| done].
    exists (e, c). split; [done |]. by apply elem_of_map_to_list, map_lookup_filter_Some.
Qed.

Lemma elem_of_boundEntities (b : ItemState.Binder) e :
  e ∈ ItemState.boundEntities b ↔ hasItem (componentsOf (ItemState.world b) e) = true.
Proof. unfold ItemState.boundEntities. by rewrite elem_of_list_to_set, elem_of_itemQuery. Qed.

(** The effect tags its entity and no other. *)
Lemma effect_item h e w e' :
  hasItem (componentsOf (ItemReactor.effect h e w) e') = true
  ↔ hasItem (componentsOf w e') = true ∨ (e' = e ∧ e ≠ UndefinedEntity).
Proof.
  destruct (decide (e = UndefinedEntity)) as [-> | He].
  { rewrite effect_undefined. split; [by left | by intros [? | [_ ?]]]. }
  destruct (decide (e = e')) as [<- | Hne].
  - destruct (effect_configures h e w He) as [Hi _]. split; [by right | done].
  - rewrite effect_other by done. split; [by left | intros [? | [-> _]]; done].
Qed.

Lemma renderAll_item M (items : list EntityUUID) w e :
  hasItem (componentsOf (ItemState.renderAll useEntityByUUID M items w).1 e) = true
  ↔ hasItem (componentsOf w e) = true
    ∨ ∃ k, k ∈ items ∧ useEntityByUUID k = e ∧ e ≠ UndefinedEntity
           ∧ M !! k ≠ Some (useEntityByUUID k).
Proof.
  induction items as [| k items IH] using rev_ind.
  { split; [by left | intros [? | (k & Hk & _)]; [done | by apply elem_of_nil in Hk]]. }
  rewrite renderAll_snoc. simpl fst.
  destruct (decide (M !! k = Some (useEntityByUUID k))) as [HM | HM].
  - rewrite render_unchanged by done. simpl fst. rewrite IH. split.
    + intros [? | (k' & Hk' & ?)]; [by left |].
      right. exists k'. split; [apply elem_of_app; by left | done].
    + intros [? | (k' & Hk' & Hr & He & HM')]; [by left |].
      apply elem_of_app in Hk' as [Hk' | Hk']; [right; by exists k' |].
      apply list_elem_of_singleton in Hk' as ->. done.
  - rewrite render_effect by done. simpl fst. rewrite effect_item, IH. split.
    + intros [[? | (k' & Hk' & ?)] | [-> He]]; [by left | |].
      * right. exists k'. split; [apply elem_of_app; by left | done].
      * right. exists k. split; [| done].
        apply elem_of_app. right. by apply list_elem_of_singleton.
    + intros [? | (k' & Hk' & Hr & He & HM')]; [by left; left |].
      apply elem_of_app in Hk' as [Hk' | Hk']; [left; right; by exists k' |].
      apply list_elem_of_singleton in Hk' as ->. right. by rewrite Hr.
Qed.

(** On a store without item entities, every entity a pass tags carries the
    item configuration of a handle that resolves to it. *)
Lemma renderAll_item_configured M (items : list EntityUUID) w :
  (∀ e, hasItem (componentsOf w e) = false) →
  ∀ e, hasItem (componentsOf (ItemState.renderAll useEntityByUUID M items w).1 e) = true →
       ∃ h, h ∈ items ∧ useEntityByUUID h = e
            ∧ ItemConfigured h
                (componentsOf (ItemState.renderAll useEntityByUUID M items w).1 e).
Proof.
  intros Hnone. induction items as [| k items IH] using rev_ind; intros e.
  { simpl. by rewrite Hnone. }
  rewrite renderAll_snoc. simpl fst.
  destruct (decide (M !! k = Some (useEntityByUUID k))) as [HM | HM].
  - rewrite render_unchanged by done. simpl fst. intros Ht.
    destruct (IH e Ht) as (h & Hh & Hr & Hc).
    exists h. split; [apply elem_of_app; by left | done].
  - rewrite render_effect by done. simpl fst.
    destruct (decide (useEntityByUUID k = UndefinedEntity)) as [Hk | Hk].
    + rewrite Hk, effect_undefined. intros Ht.
      destruct (IH e Ht) as (h & Hh & Hr & Hc).
      exists h. split; [apply elem_of_app; by left | done].
    + destruct (decide (useEntityByUUID k = e)) as [<- | Hne].
      * intros _. exists k. split; [| split; [done | by apply effect_configures]].
        apply elem_of_app. right. by apply list_elem_of_singleton.
      * rewrite effect_other by done. intros Ht.
        destruct (IH e Ht) as (h & Hh & Hr & Hc).
        exists h. split; [apply elem_of_app; by left | done].
Qed.

Lemma mounted_reactorIn (items : list EntityUUID) state (b : ItemState.Binder) h :
  ItemState.mounted (ItemState.reactorIn items useEntityByUUID state b).1 !! h
  = (λ _, useEntityByUUID h) <$> state !! h.
Proof.
  unfold ItemState.reactorIn. simpl. rewrite map_lookup_imap.
  by destruct (state !! h).
Qed.

(** What a pass, in any order of the keys, does to the Live Entities. *)
Lemma boundEntities_reactorIn (items : list EntityUUID) state (b : ItemState.Binder) :
  items ≡ₚ (map_to_list state).*1 →
  ItemState.boundEntities (ItemState.reactorIn items useEntityByUUID state b).1
  = ItemState.boundEntities b
    ∪ set_map useEntityByUUID
        (filter (λ h, useEntityByUUID h ≠ UndefinedEntity
                      ∧ ItemState.mounted b !! h ≠ Some (useEntityByUUID h))
           (dom state)).
Proof.
  intros Horder. apply set_eq. intros e.
  rewrite elem_of_union, !elem_of_boundEntities, elem_of_map.
  unfold ItemState.reactorIn. simpl. rewrite renderAll_item. split.
  - intros [? | (k & Hk & <- & He & HM)]; [by left |].
    right. exists k. split; [done |]. apply elem_of_filter. split; [done |].
    apply elem_of_dom, elem_of_keys. by rewrite <- Horder.
  - intros [? | (k & -> & Hk)]; [by left |].
    apply elem_of_filter in Hk as [[He HM] Hk]. right. exists k.
    split; [| done]. rewrite Horder. by apply elem_of_keys, elem_of_dom.
Qed.

Lemma reactorIn_stable (items : list EntityUUID) state (b : ItemState.Binder) :
  items ≡ₚ (map_to_list state).*1 →
  ItemState.reactorIn items useEntityByUUID state
    (ItemState.reactorIn items useEntityByUUID state b).1
  = ((ItemState.reactorIn items useEntityByUUID state b).1, []).
Proof.
  intros Horder. set (b' := (ItemState.reactorIn items useEntityByUUID state b).1).
  unfold ItemState.reactorIn at 1.
  rewrite renderAll_unchanged.
  - reflexivity.
  - intros k Hk. rewrite Horder in Hk. apply elem_of_keys in Hk as [c Hc].
    unfold b'. rewrite mounted_reactorIn, Hc. reflexivity.
Qed.

Lemma reactor_reactorIn state (b : ItemState.Binder) :
  ItemState.reactor useEntityByUUID state b
  = ItemState.reactorIn (map_to_list state).*1 useEntityByUUID state b.
Proof. reflexivity. Qed.

End LiveEntities.

Lemma boundEntities_unbound (b : ItemState.Binder) :
  itemQuery (ItemState.world b) = [] → ItemState.boundEntities b = ∅.
Proof. intros Hq. unfold ItemState.boundEntities. by rewrite Hq. Qed.

(** ** Claims on the binder *)

(** C2, as stated, fails, in two ways.  An instance whose handle does not
    resolve to an entity returns before configuring anything: with [H1] in
    [ItemState] and no entity known to [UUIDComponent] for it, the pass
    leaves no Live Entity at all.  And the effect has no cleanup: when the
    handle [H1], bound to entity 9, comes to resolve to entity 8, the next
    pass configures entity 8 and entity 9 stays configured, two Live
    Entities for the one handle of [ItemState]. *)
Lemma C2_unresolved_handle_unbound :
  dom (itemState processWithItem) = {["H1"]}
  ∧ ItemState.boundEntities
      (ItemState.reactor resolveNone (itemState processWithItem) freshBinder).1
    = ∅
  ∧ 9%N ∈ ItemState.boundEntities
            (ItemState.reactor resolveH1Moved (itemState processWithItem)
               (ItemState.reactor resolveH1 (itemState processWithItem) freshBinder).1).1
  ∧ 8%N ∈ ItemState.boundEntities
            (ItemState.reactor resolveH1Moved (itemState processWithItem)
               (ItemState.reactor resolveH1 (itemState processWithItem) freshBinder).1).1.
Proof.
  rewrite itemState_processWithItem.
  assert (("H1" : string) ∈ (map_to_list ({["H1" := "red"]} : gmap string string)).*1) as Hkey.
  { apply elem_of_keys. eexists. apply lookup_singleton_eq. }
  split; [apply dom_singleton_L |]. split; [| split].
  - rewrite reactor_reactorIn, boundEntities_reactorIn by done.
    rewrite boundEntities_unbound by apply itemQuery_empty.
    apply set_eq. intros e. rewrite elem_of_union, elem_of_map. split; [| done].
    intros [He | (k & _ & Hk)]; [done |].
    apply elem_of_filter in Hk as [[Hk _] _]. by destruct Hk.
  - rewrite (reactor_reactorIn resolveH1Moved), boundEntities_reactorIn by done.
    apply elem_of_union. left.
    rewrite reactor_reactorIn, boundEntities_reactorIn by done.
    apply elem_of_union. right. apply elem_of_map. exists "H1". split; [reflexivity |].
    apply elem_of_filter. split; [| apply elem_of_dom; eexists; apply lookup_singleton_eq].
    split; [discriminate |].
    change (ItemState.mounted freshBinder) with (∅ : gmap string N).
    by rewrite lookup_empty.
  - rewrite (reactor_reactorIn resolveH1Moved), boundEntities_reactorIn by done.
    apply elem_of_union. right. apply elem_of_map. exists "H1". split; [reflexivity |].
    apply elem_of_filter. split; [| apply elem_of_dom; eexists; apply lookup_singleton_eq].
    split; [discriminate |].
    rewrite mounted_reactor, lookup_singleton_eq. discriminate.
Qed.

(** C2, amended: for any log of actions applied to [ItemState] and any
    order in which its keys are listed, a binder pass that starts with
    nothing mounted and no item entity in the store leaves as Live Entities
    exactly the entities that the handles of [ItemState] resolve to: a
    handle that resolves to no entity contributes none, no entity is bound
    that no handle resolves to, every Live Entity carries the item
    configuration of a handle that resolves to it, and every handle has one
    mounted instance, holding the entity it resolves to.  Running the pass
    again on the unchanged state, with the same resolution, runs no effect
    and leaves binder and store as they were.  From any binder, a pass adds
    to the Live Entities the entities of the handles whose instance did not
    hold them already, and removes none. *)
Theorem C2_binder_converges (useEntityByUUID : EntityUUID → Entity)
  (l : list Action) (p : Process) (state : gmap EntityUUID string)
  (items : list EntityUUID) (b : ItemState.Binder)
  (Hstate : state = itemState (applyActions l p))
  (Horder : items ≡ₚ (map_to_list state).*1)
  (Hunmounted : ItemState.mounted b = ∅)
  (Hnoitems : itemQuery (ItemState.world b) = []) :
  ItemState.boundEntities (ItemState.reactorIn items useEntityByUUID state b).1
  = set_map useEntityByUUID
      (filter (λ h, useEntityByUUID h ≠ UndefinedEntity) (dom state))
  ∧ (∀ e, e ∈ ItemState.boundEntities (ItemState.reactorIn items useEntityByUUID state b).1 →
          ∃ h, is_Some (state !! h) ∧ useEntityByUUID h = e
               ∧ ItemConfigured h
                   (componentsOf
                      (ItemState.world (ItemState.reactorIn items useEntityByUUID state b).1)
                      e))
  ∧ (∀ h, ItemState.mounted (ItemState.reactorIn items useEntityByUUID state b).1 !! h
          = (λ _, useEntityByUUID h) <$> state !! h)
  ∧ ItemState.reactorIn items useEntityByUUID state
      (ItemState.reactorIn items useEntityByUUID state b).1
    = ((ItemState.reactorIn items useEntityByUUID state b).1, [])
  ∧ (∀ b0 : ItemState.Binder,
       ItemState.boundEntities (ItemState.reactorIn items useEntityByUUID state b0).1
       = ItemState.boundEntities b0
         ∪ set_map useEntityByUUID
             (filter (λ h, useEntityByUUID h ≠ UndefinedEntity
                           ∧ ItemState.mounted b0 !! h ≠ Some (useEntityByUUID h))
                (dom state))).
Proof.
  split; [| split; [| split; [| split]]].
  - rewrite boundEntities_reactorIn by done.
    rewrite boundEntities_unbound by done.
    apply set_eq. intros e. rewrite elem_of_union, !elem_of_map. split.
    + intros [He | (k & -> & Hk)]; [done |].
      apply elem_of_filter in Hk as [[Hk _] Hd]. exists k. split; [done |].
      by apply elem_of_filter.
    + intros (k & -> & Hk). apply elem_of_filter in Hk as [Hk Hd].
      right. exists k. split; [done |]. apply elem_of_filter. split; [| done].
      split; [done |]. by rewrite Hunmounted, lookup_empty.
  - intros e He. apply elem_of_boundEntities in He.
    unfold ItemState.reactorIn in *. simpl in *.
    destruct (renderAll_item_configured useEntityByUUID (ItemState.mounted b) items
                (ItemState.world b)) with (e := e) as (h & Hh & Hr & Hc); [| done |].
    + intros e'. destruct (hasItem (componentsOf (ItemState.world b) e')) eqn:Ht; [| done].
      apply elem_of_itemQuery in Ht. rewrite Hnoitems in Ht. by apply elem_of_nil in Ht.
    + exists h. split; [| done]. apply elem_of_keys. by rewrite <- Horder.
  - intros h. apply mounted_reactorIn.
  - by apply reactorIn_stable.
  - intros b0. by apply boundEntities_reactorIn.
Qed.

Lemma C2_binder_converges_witness :
  ItemState.boundEntities
    (ItemState.reactorIn ["H1"] resolveH1 (itemState (applyActions [SpawnA sampleSpawn] emptyProcess))
       freshBinder).1
  = set_map resolveH1
      (filter (λ h, resolveH1 h ≠ UndefinedEntity)
         (dom (itemState (applyActions [SpawnA sampleSpawn] emptyProcess))))
  ∧ ItemState.reactorIn ["H1"] resolveH1
      (itemState (applyActions [SpawnA sampleSpawn] emptyProcess))
      (ItemState.reactorIn ["H1"] resolveH1
         (itemState (applyActions [SpawnA sampleSpawn] emptyProcess)) freshBinder).1
    = ((ItemState.reactorIn ["H1"] resolveH1
          (itemState (applyActions [SpawnA sampleSpawn] emptyProcess)) freshBinder).1, []).
Proof.
  pose proof (C2_binder_converges resolveH1 [SpawnA sampleSpawn] emptyProcess
                (itemState (applyActions [SpawnA sampleSpawn] emptyProcess))
                ["H1"] freshBinder eq_refl) as Hx.
  destruct Hx as (Hbound & _ & _ & Hstable & _).
  - change (applyActions [SpawnA sampleSpawn] emptyProcess) with processWithItem.
    rewrite itemState_processWithItem, map_to_list_singleton. reflexivity.
  - reflexivity.
  - apply itemQuery_empty.
  - split; [exact Hbound | exact Hstable].
Defined.

(** C8: for every handle of [ItemState] that resolves to an entity (handles
    resolving to distinct entities, and the binder having configured what it
    mounted before), after the binder pass the entity bound to the handle
    carries [ItemComponent], is visible, has a fixed rigid body, is named
    [item], has a trigger whose [onEnter] names the [onCollectItem]
    callback, which is the collect callback of that handle, has the scale
    (0.25, 0.25, 0.25), a sphere collider on the default layer that collides
    with avatars, held in [ColliderComponent] apart from the sphere of
    [PrimitiveGeometryComponent], and has [ShadowComponent]. *)
Theorem C8_item_entity_configured (useEntityByUUID : EntityUUID → Entity)
  (state : gmap EntityUUID string) (b : ItemState.Binder) (h : EntityUUID)
  (Hinjective : ResolvesInjectively useEntityByUUID state)
  (Hbinder : BinderConfigured b)
  (Hpresent : is_Some (state !! h))
  (Hresolved : useEntityByUUID h ≠ UndefinedEntity) :
  ItemState.mounted (ItemState.reactor useEntityByUUID state b).1 !! h
  = Some (useEntityByUUID h)
  ∧ ItemConfigured h
      (componentsOf (ItemState.world (ItemState.reactor useEntityByUUID state b).1)
         (useEntityByUUID h))
  ∧ ItemReactor.runCallback (CollectItemCallback h) = ItemReactor.onCollectItem h.
Proof.
  assert (ItemState.mounted (ItemState.reactor useEntityByUUID state b).1 !! h
          = Some (useEntityByUUID h)) as HM.
  { rewrite mounted_reactor. by destruct Hpresent as [c ->]. }
  split; [exact HM |]. split; [| reflexivity].
  by apply (reactor_configures useEntityByUUID state Hinjective b Hbinder h).
Qed.

Lemma C8_item_entity_configured_witness :
  ItemState.mounted (ItemState.reactor resolveH1 {["H1" := "red"]} freshBinder).1 !! "H1"
  = Some (resolveH1 "H1")
  ∧ ItemConfigured "H1"
      (componentsOf
         (ItemState.world (ItemState.reactor resolveH1 {["H1" := "red"]} freshBinder).1)
         (resolveH1 "H1"))
  ∧ ItemReactor.runCallback (CollectItemCallback "H1") = ItemReactor.onCollectItem "H1".
Proof.
  apply (C8_item_entity_configured resolveH1 {["H1" := "red"]} freshBinder "H1").
  - apply resolveH1_injective.
  - apply BinderConfigured_unmounted.
  - eexists. apply lookup_singleton_eq.
  - discriminate.
Defined.

(** * Further properties of the stores *)

Section StoreLogs.

Implicit Types (a : Action) (d : DestroyAction) (s : SpawnAction) (p : Process).
Implicit Types (l : list Action) (h : EntityUUID) (u : UserID).

Lemma applyActions_cons a l p :
  applyActions (a :: l) p = applyActions l (applyAction a p).
Proof. reflexivity. Qed.

Lemma lastSpawnColor_valid h l c :
  lastSpawnColor h l = Some c → c ∈ ValidItemColors.
Proof.
  induction l as [| a l IH]; simpl; [done |].
  destruct (lastSpawnColor h l) as [c' |]; [intros [= <-]; by apply IH |].
  destruct a as [s | d | t]; simpl; try done.
  case_bool_decide; [| done]. case_decide; [| done]. by intros [= <-].
Qed.

Lemma itemState_receptors_lookup a (state : gmap EntityUUID string) h :
  ItemState.receptors a state !! h
  = match lastSpawnColor h [a] with
    | Some c => Some c
    | None => state !! h
    end.
Proof.
  destruct a as [s | d | t]; simpl; try done.
  unfold ItemState.receptors, ItemState.onCollectItem, ItemState.onCollectItem_handler. simpl.
  case_bool_decide; [| done].
  rewrite lookup_insert. by case_decide.
Qed.

Lemma itemState_applyActions_lookup l p h :
  itemState (applyActions l p) !! h
  = match lastSpawnColor h l with
    | Some c => Some c
    | None => itemState p !! h
    end.
Proof.
  revert p. induction l as [| a l IH]; intros p; [done |].
  rewrite applyActions_cons, IH. simpl lastSpawnColor.
  destruct (lastSpawnColor h l) as [c |]; [done |].
  simpl itemState. rewrite itemState_receptors_lookup. reflexivity.
Qed.

Lemma scoreState_applyActions_lookup l p u :
  scoreState (applyActions l p) !! u
  = if decide (collectedBy u l = 0%Z) then scoreState p !! u
    else Some (ScoreState.currentScore (scoreState p) u + collectedBy u l)%Z.
Proof.
  induction l as [| a l IH] using rev_ind; [done |].
  rewrite applyActions_snoc, collectedBy_app. simpl scoreState.
  pose proof (collectedBy_nonneg u l) as Hl.
  destruct a as [s | d | t]; simpl collectedBy.
  - rewrite ScoreState_receptors_spawn, IH.
    repeat case_decide; try lia; try done. f_equal. lia.
  - rewrite ScoreState_receptors_destroy, lookup_insert, currentScore_applyActions, IH.
    repeat case_decide; repeat case_bool_decide; subst;
      try congruence; try lia; try (f_equal; lia).
  - rewrite ScoreState_receptors_other, IH.
    repeat case_decide; try lia; try done. f_equal. lia.
Qed.

Lemma collectedBy_Permutation u l l' :
  Permutation l l' → collectedBy u l = collectedBy u l'.
Proof.
  induction 1 as [| a l l' _ IH | a b l | l l' l'' _ IH1 _ IH2]; simpl.
  - done.
  - destruct a as [s | d | t]; try done. case_bool_decide; lia.
  - destruct a as [s | d | t], b as [s' | d' | t']; try done;
      repeat case_bool_decide; lia.
  - congruence.
Qed.

End StoreLogs.

(** X1: a spawn action with a valid colour, whose handle is a plain key of
    the store (not the name of a member of the state proxy), is applied: it
    records its colour under its handle and touches no other handle; on a
    handle that is already present it overwrites the colour and the number
    of entries stays the same, on a fresh handle the state gains exactly one
    entry; the score store is not touched. *)
Theorem spawn_records_colour (s : SpawnAction) (p : Process)
  (Hcolour : spawn_color s ∈ ValidItemColors)
  (Hplain : plainKey (spawn_entityUUID s)) :
  deliverAction (SpawnA s) p = Applied (applyAction (SpawnA s) p)
  ∧ itemState (applyAction (SpawnA s) p) !! spawn_entityUUID s = Some (spawn_color s)
  ∧ (∀ h, h ≠ spawn_entityUUID s →
          itemState (applyAction (SpawnA s) p) !! h = itemState p !! h)
  ∧ size (itemState (applyAction (SpawnA s) p))
    = (if decide (is_Some (itemState p !! spawn_entityUUID s))
       then size (itemState p) else S (size (itemState p)))
  ∧ scoreState (applyAction (SpawnA s) p) = scoreState p.
Proof.
  split; [by apply deliverAction_plain, plainAction_spawn |].
  simpl itemState. rewrite ItemState_receptors_spawn_valid by done.
  split; [apply lookup_insert_eq |].
  split; [intros h Hne; by apply lookup_insert_ne |].
  split; [| reflexivity].
  case_decide as Hpresent.
  - by apply map_size_insert_Some.
  - apply map_size_insert_None. by apply eq_None_not_Some.
Qed.

Lemma spawn_records_colour_witness :
  deliverAction (SpawnA sampleSpawn) processWithItem
  = Applied (applyAction (SpawnA sampleSpawn) processWithItem)
  ∧ itemState (applyAction (SpawnA sampleSpawn) processWithItem) !! "H1" = Some "red"
  ∧ size (itemState (applyAction (SpawnA sampleSpawn) processWithItem))
    = size (itemState processWithItem).
Proof.
  pose proof (spawn_records_colour sampleSpawn processWithItem) as Hx.
  destruct Hx as (Hd & Hl & _ & Hs & _).
  - apply (bool_decide_eq_true_1 (spawn_color sampleSpawn ∈ ValidItemColors)). reflexivity.
  - apply (bool_decide_eq_false_1 ("H1" ∈ proxyMembers)). reflexivity.
  - split; [exact Hd |]. split; [exact Hl |]. rewrite Hs. apply decide_True.
    rewrite itemState_processWithItem. eexists. apply lookup_singleton_eq.
Defined.

(** X2: over any log of actions that index the stores with plain keys (no
    name of a member of the state proxy), every action is applied and the
    colour [ItemState] holds for a handle is the colour of the last spawn
    action of the log that matches the action's shape and carries the
    handle, or what the state held before when the log has none; so the last
    spawn wins, and no handle present before is absent after. *)
Theorem itemState_after_log (l : list Action) (p : Process) (h : EntityUUID)
  (Hlog : Forall plainAction l) :
  deliverActions l p = Applied (applyActions l p)
  ∧ itemState (applyActions l p) !! h
    = match lastSpawnColor h l with
      | Some c => Some c
      | None => itemState p !! h
      end
  ∧ (is_Some (itemState p !! h) → is_Some (itemState (applyActions l p) !! h))
  ∧ dispatched (applyActions l p) = dispatched p.
Proof.
  split; [by apply deliverActions_plain |].
  split; [apply itemState_applyActions_lookup |].
  split; [| apply applyActions_dispatched].
  intros Hh. apply elem_of_dom. apply itemState_applyActions_keeps_keys.
  by apply elem_of_dom.
Qed.

Lemma itemState_after_log_witness :
  deliverActions [SpawnA sampleSpawn; DestroyA sampleDestroy] emptyProcess
  = Applied (applyActions [SpawnA sampleSpawn; DestroyA sampleDestroy] emptyProcess)
  ∧ itemState (applyActions [SpawnA sampleSpawn; DestroyA sampleDestroy] emptyProcess) !! "H1"
    = Some "red".
Proof.
  pose proof (itemState_after_log [SpawnA sampleSpawn; DestroyA sampleDestroy]
                emptyProcess "H1") as Hx.
  destruct Hx as (Hd & Hl & _).
  - repeat constructor.
    + apply plainAction_spawn.
      apply (bool_decide_eq_false_1 ("H1" ∈ proxyMembers)). reflexivity.
    + apply plainAction_destroy.
      apply (bool_decide_eq_false_1 ("U1" ∈ proxyMembers)). reflexivity.
  - split; [exact Hd |]. rewrite Hl. reflexivity.
Defined.

(** X3: every colour in [ItemState] is one of [ValidItemColors], provided
    that held before the log was applied (as it does in the initial state);
    no log of actions can put another string there. *)
Theorem itemState_colours_valid (l : list Action) (p : Process)
  (Hbefore : ∀ h c, itemState p !! h = Some c → c ∈ ValidItemColors) :
  ∀ h c, itemState (applyActions l p) !! h = Some c → c ∈ ValidItemColors.
Proof.
  intros h c. rewrite itemState_applyActions_lookup.
  destruct (lastSpawnColor h l) as [c' |] eqn:Hlast.
  - intros [= <-]. by apply (lastSpawnColor_valid h l).
  - apply Hbefore.
Qed.

Lemma itemState_colours_valid_witness :
  itemState
    (applyActions
       [SpawnA sampleSpawn;
        SpawnA (mkSpawn "scene-root" "H2" "white" (mkVector3 0 (1 # 2) 0)
                  (mkQuaternion 0 0 0 1))]
       emptyProcess) !! "H1" = Some "red"
  ∧ "red" ∈ ValidItemColors.
Proof.
  assert (itemState
            (applyActions
               [SpawnA sampleSpawn;
                SpawnA (mkSpawn "scene-root" "H2" "white" (mkVector3 0 (1 # 2) 0)
                          (mkQuaternion 0 0 0 1))]
               emptyProcess) !! "H1" = Some "red") as Hl.
  { rewrite itemState_applyActions_lookup. reflexivity. }
  split; [exact Hl |].
  refine (itemState_colours_valid _ emptyProcess _ "H1" "red" Hl).
  intros h c Hc. simpl in Hc. unfold ItemState.initial in Hc.
  by rewrite lookup_empty in Hc.
Defined.

(** X4: over any log of actions that index the stores with plain keys (no
    name of a member of the state proxy), every action is applied and the
    count [ScoreState] stores for a user is untouched when no destroy action
    of the log credits the user, and is the user's former score plus the
    number of crediting destroy actions otherwise; the users with a count
    afterwards are those who had one before and those credited by the
    log. *)
Theorem scoreState_after_log (l : list Action) (p : Process) (u : UserID)
  (Hlog : Forall plainAction l) :
  deliverActions l p = Applied (applyActions l p)
  ∧ scoreState (applyActions l p) !! u
    = (if decide (collectedBy u l = 0%Z) then scoreState p !! u
       else Some (ScoreState.currentScore (scoreState p) u + collectedBy u l)%Z)
  ∧ (u ∈ dom (scoreState (applyActions l p))
     ↔ u ∈ dom (scoreState p) ∨ collectedBy u l ≠ 0%Z).
Proof.
  split; [by apply deliverActions_plain |].
  split; [apply scoreState_applyActions_lookup |].
  rewrite !elem_of_dom, scoreState_applyActions_lookup.
  case_decide as Hz.
  - split; [by left | intros [Hd | Hc]; done].
  - split; [by right | intros _; by eexists].
Qed.

Lemma scoreState_after_log_witness :
  deliverActions [DestroyA sampleDestroy; SpawnA sampleSpawn; DestroyA sampleDestroy]
    emptyProcess
  = Applied (applyActions [DestroyA sampleDestroy; SpawnA sampleSpawn; DestroyA sampleDestroy]
               emptyProcess)
  ∧ scoreState
      (applyActions [DestroyA sampleDestroy; SpawnA sampleSpawn; DestroyA sampleDestroy]
         emptyProcess) !! "U1"
    = Some 2%Z.
Proof.
  pose proof (scoreState_after_log
                [DestroyA sampleDestroy; SpawnA sampleSpawn; DestroyA sampleDestroy]
                emptyProcess "U1") as Hx.
  destruct Hx as (Hd & Hl & _).
  - repeat constructor.
    + apply plainAction_destroy.
      apply (bool_decide_eq_false_1 ("U1" ∈ proxyMembers)). reflexivity.
    + apply plainAction_spawn.
      apply (bool_decide_eq_false_1 ("H1" ∈ proxyMembers)). reflexivity.
    + apply plainAction_destroy.
      apply (bool_decide_eq_false_1 ("U1" ∈ proxyMembers)). reflexivity.
  - split; [exact Hd |]. rewrite Hl. reflexivity.
Defined.

Lemma scoreState_order_independent_aux (l l' : list Action) (p : Process) :
  Permutation l l' → scoreState (applyActions l p) = scoreState (applyActions l' p).
Proof.
  intros Hperm. apply map_eq. intros u. rewrite !scoreState_applyActions_lookup.
  by rewrite (collectedBy_Permutation u l l').
Qed.

(** X5: the score store does not depend on the order in which the actions
    of a log are applied: two logs that are permutations of each other
    leave the same [ScoreState]. *)
Theorem scoreState_order_independent (l l' : list Action) (p : Process)
  (Hperm : Permutation l l') :
  scoreState (applyActions l p) = scoreState (applyActions l' p)
  ∧ ∀ u, ScoreState.currentScore (scoreState (applyActions l p)) u
         = ScoreState.currentScore (scoreState (applyActions l' p)) u.
Proof.
  rewrite (scoreState_order_independent_aux l l' p Hperm). done.
Qed.

Lemma scoreState_order_independent_witness :
  scoreState
    (applyActions [DestroyA sampleDestroy; SpawnA sampleSpawn; DestroyA (mkDestroy "H2" "U2")]
       emptyProcess)
  = scoreState
      (applyActions [DestroyA (mkDestroy "H2" "U2"); DestroyA sampleDestroy; SpawnA sampleSpawn]
         emptyProcess).
Proof.
  apply scoreState_order_independent.
  symmetry.
  apply (Permutation_cons_append
           [DestroyA sampleDestroy; SpawnA sampleSpawn] (DestroyA (mkDestroy "H2" "U2"))).
Defined.

(** X6: every count stored in [ScoreState] is at least 1, provided that
    held before the log was applied (as it does in the initial state); a
    user is never stored with a zero or negative count. *)
Theorem scoreState_counts_positive (l : list Action) (p : Process)
  (Hbefore : ∀ u v, scoreState p !! u = Some v → (1 ≤ v)%Z) :
  ∀ u v, scoreState (applyActions l p) !! u = Some v → (1 ≤ v)%Z.
Proof.
  intros u v. rewrite scoreState_applyActions_lookup.
  pose proof (collectedBy_nonneg u l) as Hl.
  case_decide as Hz; [apply Hbefore |].
  intros [= <-]. unfold ScoreState.currentScore.
  destruct (scoreState p !! u) as [v0 |] eqn:Hu; simpl.
  - specialize (Hbefore u v0 Hu). lia.
  - lia.
Qed.

Lemma scoreState_counts_positive_witness :
  scoreState (applyActions [DestroyA sampleDestroy; DestroyA sampleDestroy] emptyProcess) !! "U1"
  = Some 2%Z
  ∧ (1 ≤ 2)%Z.
Proof.
  assert (scoreState (applyActions [DestroyA sampleDestroy; DestroyA sampleDestroy] emptyProcess)
            !! "U1" = Some 2%Z) as Hl.
  { rewrite scoreState_applyActions_lookup. reflexivity. }
  split; [exact Hl |].
  refine (scoreState_counts_positive _ emptyProcess _ "U1" 2%Z Hl).
  intros u v Hv. simpl in Hv. unfold ScoreState.initial in Hv.
  by rewrite lookup_empty in Hv.
Defined.

(** X7: two incoming actions that index the stores with plain keys, and
    that are not both spawn actions matching the action's shape, are both
    applied in either order and leave the same entries in the stores: a
    spawn and a destroy write different stores, and the counts of two
    destroys do not depend on their order.  (Two matching spawns are left
    out: the order in which they arrive is the order of the keys of
    [ItemState].) *)
Theorem applyAction_commute (a b : Action) (p : Process)
  (Hkinds : ¬ (is_Some (ItemActions.spawn_matches a) ∧ is_Some (ItemActions.spawn_matches b)))
  (Ha : plainAction a) (Hb : plainAction b) :
  deliverActions [a; b] p = Applied (applyAction b (applyAction a p))
  ∧ deliverActions [b; a] p = Applied (applyAction a (applyAction b p))
  ∧ applyAction a (applyAction b p) = applyAction b (applyAction a p).
Proof.
  split; [by apply (deliverActions_plain [a; b]); repeat constructor |].
  split; [by apply (deliverActions_plain [b; a]); repeat constructor |].
  assert (itemState (applyAction a (applyAction b p))
          = itemState (applyAction b (applyAction a p))) as Hitems.
  { simpl itemState. unfold ItemState.receptors, ItemState.onCollectItem.
    destruct (ItemActions.spawn_matches a) as [s1 |] eqn:H1;
      destruct (ItemActions.spawn_matches b) as [s2 |] eqn:H2; try done.
    exfalso. apply Hkinds. split; by eexists. }
  assert (scoreState (applyAction a (applyAction b p))
          = scoreState (applyAction b (applyAction a p))) as Hscores.
  { apply (scoreState_order_independent_aux [b; a] [a; b] p). apply perm_swap. }
  destruct p as [items scores queue]. unfold applyAction in *. simpl in *.
  by rewrite Hitems, Hscores.
Qed.

Lemma applyAction_commute_witness :
  deliverActions [SpawnA sampleSpawn; DestroyA sampleDestroy] emptyProcess
  = Applied (applyAction (DestroyA sampleDestroy) (applyAction (SpawnA sampleSpawn) emptyProcess))
  ∧ deliverActions [DestroyA sampleDestroy; SpawnA sampleSpawn] emptyProcess
    = Applied (applyAction (SpawnA sampleSpawn)
                 (applyAction (DestroyA sampleDestroy) emptyProcess))
  ∧ applyAction (SpawnA sampleSpawn) (applyAction (DestroyA sampleDestroy) emptyProcess)
    = applyAction (DestroyA sampleDestroy) (applyAction (SpawnA sampleSpawn) emptyProcess).
Proof.
  apply applyAction_commute.
  - intros [_ [d Hd]]. discriminate Hd.
  - apply plainAction_spawn.
    apply (bool_decide_eq_false_1 ("H1" ∈ proxyMembers)). reflexivity.
  - apply plainAction_destroy.
    apply (bool_decide_eq_false_1 ("U1" ∈ proxyMembers)). reflexivity.
Defined.

(** * Further properties of the spawn system *)

Lemma randomColor_index (r : Q) :
  (0 <= r)%Q → (r < 1)%Q →
  (0 ≤ Qfloor (r * inject_Z (Z.of_nat (length ValidItemColors))) < 8)%Z.
Proof.
  intros H0 H1. change (inject_Z (Z.of_nat (length ValidItemColors))) with (8 # 1).
  split.
  - change 0%Z with (Qfloor 0). apply Qfloor_resp_le. lra.
  - rewrite Zlt_Qlt.
    apply Qle_lt_trans with (r * (8 # 1))%Q; [apply Qfloor_le |].
    change (inject_Z 8) with (8 # 1). lra.
Qed.

Lemma randomColor_valid_aux (r : Q) :
  ((0 <= r)%Q → (r < 1)%Q →
   ∃ c', ItemSpawnSystem.randomColor r = Some c' ∧ c' ∈ ValidItemColors).
Proof.
  intros H0 H1. pose proof (randomColor_index r H0 H1) as Hi.
  unfold ItemSpawnSystem.randomColor. cbv zeta.
  set (i := Qfloor (r * inject_Z (Z.of_nat (length ValidItemColors)))) in *.
  destruct (Z.ltb_spec i 0); [lia |].
  destruct (lookup_lt_is_Some_2 ValidItemColors (Z.to_nat i)) as [c' Hc'].
  { change (length ValidItemColors) with 8%nat. lia. }
  exists c'. split; [exact Hc' | by apply list_elem_of_lookup_2 in Hc'].
Qed.

(** X8: for every value [Math.random] can return (at least 0, below 1) the
    colour index is in range, so the colour the system picks is defined and
    is one of [ValidItemColors]; and every one of the eight colours is
    picked for some value of [Math.random]. *)
Theorem randomColor_valid (r : Q) (c : string) :
  ((0 <= r)%Q → (r < 1)%Q →
   ∃ c', ItemSpawnSystem.randomColor r = Some c' ∧ c' ∈ ValidItemColors)
  ∧ (c ∈ ValidItemColors →
     ∃ r', (0 <= r')%Q ∧ (r' < 1)%Q ∧ ItemSpawnSystem.randomColor r' = Some c).
Proof.
  split; [apply randomColor_valid_aux |].
  intros Hc. unfold ValidItemColors in Hc.
    repeat (apply elem_of_cons in Hc as [-> | Hc]);
      [ exists (0 # 8) | exists (1 # 8) | exists (2 # 8) | exists (3 # 8)
      | exists (4 # 8) | exists (5 # 8) | exists (6 # 8) | exists (7 # 8)
      | by apply elem_of_nil in Hc ];
      (split; [discriminate | split; reflexivity]).
Qed.

Lemma randomColor_valid_witness :
  (∃ c', ItemSpawnSystem.randomColor (3 # 10) = Some c' ∧ c' ∈ ValidItemColors)
  ∧ ∃ r', (0 <= r')%Q ∧ (r' < 1)%Q ∧ ItemSpawnSystem.randomColor r' = Some "pink".
Proof.
  split.
  - apply (randomColor_valid (3 # 10) "pink"); [discriminate | reflexivity].
  - apply (randomColor_valid (3 # 10) "pink").
    apply (bool_decide_eq_true_1 ("pink" ∈ ValidItemColors)). reflexivity.
Defined.

Lemma randomColor_Some_valid (r : Q) (c : string) :
  ItemSpawnSystem.randomColor r = Some c → c ∈ ValidItemColors.
Proof.
  unfold ItemSpawnSystem.randomColor. cbv zeta.
  destruct (_ <? 0)%Z; [done |]. apply list_elem_of_lookup_2.
Qed.

(** The action creator accepts the literal of the system exactly when the
    scene root has a UUID and the colour is defined. *)
Lemma spawn_creator_accepts (env : Env) (e : Entity) :
  is_Some (ItemActions_spawn (spawnArgsOf env e))
  ↔ is_Some (getUUIDComponent env (getAncestorWithSceneComponent env e))
    ∧ is_Some (ItemSpawnSystem.randomColor (Math_random env)).
Proof.
  unfold ItemActions_spawn, spawnArgsOf. simpl.
  destruct (getUUIDComponent env (getAncestorWithSceneComponent env e)) as [parent |];
    [| split; [intros [? ?]; done | intros [[? ?] _]; done]].
  destruct (ItemSpawnSystem.randomColor (Math_random env)) as [c |] eqn:Hc;
    [| split; [intros [? ?]; done | intros [_ [? ?]]; done]].
  rewrite bool_decide_eq_true_2 by (by apply (randomColor_Some_valid (Math_random env))).
  split; [intros _; split; by eexists | intros _; by eexists].
Qed.

(** X9: one run of the system dispatches exactly when no entity carries
    [ItemComponent], the process is hosting, the list of entities named
    [platform] exists, is not empty and starts with an entity other than
    [UndefinedEntity], and the action creator accepts the literal (the scene
    root of the platform has a UUID and the colour is defined); a missing
    [platform] key, an empty list and an undefined first entity all end the
    run without a dispatch.  When it dispatches, it appends one spawn to the
    queue, with that parent, the generated UUID, that colour and the height
    0.5, and keeps what was queued before.  The run is left by an exception
    exactly when it passes the guards and the creator rejects the literal. *)
Theorem execute_dispatches_iff (env : Env) (p : Process) :
  (ItemSpawnSystem.execute env p ≠ p
   ↔ itemQuery (ecs env) = []
     ∧ ItemSpawnSystem.hosting (worldNetwork env) = true
     ∧ ∃ e rest, entitiesByName env !! "platform" = Some (e :: rest)
                 ∧ e ≠ UndefinedEntity
                 ∧ is_Some (getUUIDComponent env (getAncestorWithSceneComponent env e))
                 ∧ is_Some (ItemSpawnSystem.randomColor (Math_random env)))
  ∧ (ItemSpawnSystem.execute env p ≠ p →
     ∃ args e rest,
       entitiesByName env !! "platform" = Some (e :: rest)
       ∧ dispatched (ItemSpawnSystem.execute env p)
         = (dispatched p ++ [DispatchSpawn args])%list
       ∧ arg_parentUUID args = getUUIDComponent env (getAncestorWithSceneComponent env e)
       ∧ arg_entityUUID args = generateUUID env
       ∧ arg_color args = ItemSpawnSystem.randomColor (Math_random env)
       ∧ vy (arg_position args) = 1 # 2
       ∧ arg_rotation args = Quaternion_random env)
  ∧ (ItemSpawnSystem.run env p = Thrown
     ↔ itemQuery (ecs env) = []
       ∧ ItemSpawnSystem.hosting (worldNetwork env) = true
       ∧ ∃ e rest, entitiesByName env !! "platform" = Some (e :: rest)
                   ∧ e ≠ UndefinedEntity
                   ∧ ¬ (is_Some (getUUIDComponent env (getAncestorWithSceneComponent env e))
                        ∧ is_Some (ItemSpawnSystem.randomColor (Math_random env)))).
Proof.
  destruct (itemQuery (ecs env)) as [| e0 l0] eqn:Hq.
  2:{ assert (itemQuery (ecs env) ≠ []) as Hne by (by rewrite Hq).
      rewrite (execute_item_exists env p Hne), (run_item_exists env p Hne).
      split; [split; [done | by intros [? _]] |].
      split; [done |]. split; [done | by intros [? _]]. }
  destruct (ItemSpawnSystem.hosting (worldNetwork env)) eqn:Hh.
  2:{ rewrite (execute_not_hosting env p Hh), (run_not_hosting env p Hh).
      split; [split; [done | by intros (_ & ? & _)] |].
      split; [done |]. split; [done | by intros (_ & ? & _)]. }
  destruct (ItemSpawnSystem.platformLookup (entitiesByName env)) as [pe |] eqn:Hp.
  2:{ rewrite (execute_no_platform env p Hp), (run_no_platform env p Hp).
      unfold ItemSpawnSystem.platformLookup in Hp.
      split; [split; [done | intros (_ & _ & e & rest & Hn & _); by rewrite Hn in Hp] |].
      split; [done |].
      split; [done | intros (_ & _ & e & rest & Hn & _); by rewrite Hn in Hp]. }
  assert (∃ rest, entitiesByName env !! "platform" = Some (pe :: rest)) as [rest Hn].
  { unfold ItemSpawnSystem.platformLookup in Hp.
    destruct (entitiesByName env !! "platform") as [[| e rest] |]; try done.
    simpl in Hp. injection Hp as ->. by eexists. }
  destruct (decide (pe = UndefinedEntity)) as [Hundef | Hne].
  { rewrite Hundef in Hp.
    rewrite (execute_undefined_platform env p Hp), (run_undefined_platform env p Hp).
    split; [split; [done | intros (_ & _ & e & rest' & Hn' & He & _); congruence] |].
    split; [done |].
    split; [done | intros (_ & _ & e & rest' & Hn' & He & _); congruence]. }
  destruct (ItemActions_spawn (spawnArgsOf env pe)) as [action |] eqn:Hc.
  - assert (is_Some (ItemActions_spawn (spawnArgsOf env pe))) as Hok by (by eexists).
    rewrite (execute_dispatches env p pe Hq Hh Hp Hne Hok).
    rewrite (run_past_guards env p pe Hq Hh Hp Hne), Hc.
    apply spawn_creator_accepts in Hok as [Hparent Hcolour].
    split; [split; [intros _ | intros _; apply dispatchAction_changes] |].
    { split; [done |]. split; [done |]. by exists pe, rest. }
    split.
    { intros _. exists (spawnArgsOf env pe), pe, rest. done. }
    split; [done |]. intros (_ & _ & e & rest' & Hn' & _ & Hnot).
    assert (e = pe) as -> by congruence. by destruct Hnot.
  - destruct (execute_thrown env p pe Hq Hh Hp Hne Hc) as [Hrun Hexec].
    rewrite Hrun, Hexec.
    assert (¬ is_Some (ItemActions_spawn (spawnArgsOf env pe))) as Hno.
    { rewrite Hc. by intros [? ?]. }
    rewrite spawn_creator_accepts in Hno.
    split; [split; [done |] |].
    { intros (_ & _ & e & rest' & Hn' & _ & Hparent & Hcolour).
      assert (e = pe) as -> by congruence. by destruct Hno. }
    split; [done |]. split; [intros _ | done].
    split; [done |]. split; [done |]. by exists pe, rest.
Qed.

Lemma execute_dispatches_iff_witness :
  ItemSpawnSystem.execute hostEnv emptyProcess ≠ emptyProcess
  ∧ ItemSpawnSystem.run rootlessEnv emptyProcess = Thrown.
Proof.
  split.
  - apply (execute_dispatches_iff hostEnv emptyProcess).
    split; [apply itemQuery_empty |]. split; [reflexivity |].
    exists 5%N, []. split; [reflexivity |]. split; [discriminate |].
    split; eexists; reflexivity.
  - apply (execute_dispatches_iff rootlessEnv emptyProcess).
    split; [apply itemQuery_empty |]. split; [reflexivity |].
    exists 5%N, []. split; [reflexivity |]. split; [discriminate |].
    intros [[parent Hparent] _]. discriminate Hparent.
Defined.

(** X10: whatever the system dispatches is acceptable to the colour
    validation of the spawn action it builds: with [Math.random] at least 0
    and below 1, a run either leaves the process as it was or appends a
    single spawn whose colour is one of [ValidItemColors], whose handle is
    the freshly generated UUID and whose position has the height 0.5. *)
Theorem execute_spawn_wellformed (env : Env) (p : Process)
  (H0 : (0 <= Math_random env)%Q) (H1 : (Math_random env < 1)%Q) :
  ItemSpawnSystem.execute env p = p
  ∨ ∃ args c,
      ItemSpawnSystem.execute env p = dispatchAction (DispatchSpawn args) p
      ∧ arg_color args = Some c ∧ c ∈ ValidItemColors
      ∧ arg_entityUUID args = generateUUID env
      ∧ vy (arg_position args) = 1 # 2.
Proof.
  destruct (randomColor_valid_aux (Math_random env) H0 H1) as (c & Hc & Hin).
  destruct (itemQuery (ecs env)) as [| e0 l0] eqn:Hq;
    [| left; apply execute_item_exists; by rewrite Hq].
  destruct (ItemSpawnSystem.hosting (worldNetwork env)) eqn:Hh;
    [| left; by apply execute_not_hosting].
  destruct (ItemSpawnSystem.platformLookup (entitiesByName env)) as [pe |] eqn:Hp;
    [| left; by apply execute_no_platform].
  destruct (decide (pe = UndefinedEntity)) as [-> | Hne];
    [left; by apply execute_undefined_platform |].
  destruct (ItemActions_spawn (spawnArgsOf env pe)) as [action |] eqn:Hcreated;
    [| left; by apply (execute_thrown env p pe)].
  right. eexists _, c. split.
  - apply (execute_dispatches env p pe); [done | done | done | done |].
    rewrite Hcreated. by eexists.
  - simpl. done.
Qed.

Lemma execute_spawn_wellformed_witness :
  ItemSpawnSystem.execute hostEnv emptyProcess = emptyProcess
  ∨ ∃ args c,
      ItemSpawnSystem.execute hostEnv emptyProcess
      = dispatchAction (DispatchSpawn args) emptyProcess
      ∧ arg_color args = Some c ∧ c ∈ ValidItemColors
      ∧ arg_entityUUID args = generateUUID hostEnv
      ∧ vy (arg_position args) = 1 # 2.
Proof.
  apply (execute_spawn_wellformed hostEnv emptyProcess); [discriminate | reflexivity].
Defined.

(** * Further properties of the reactive binder *)

Section BinderStore.

Variable useEntityByUUID : EntityUUID → Entity.

Implicit Types (w : gmap Entity Components) (M : gmap EntityUUID Entity).
Implicit Types (h k : EntityUUID) (e : Entity) (state : gmap EntityUUID string).

Lemma componentsOf_insert_eq e (c : Components) w : componentsOf (<[e := c]> w) e = c.
Proof. unfold componentsOf. by rewrite lookup_insert_eq. Qed.

(** The effect, on an entity, is one write of [itemComponents]. *)
Lemma effect_insert h e w :
  e ≠ UndefinedEntity →
  ItemReactor.effect h e w = <[e := itemComponents h (componentsOf w e)]> w.
Proof.
  intros Hne. unfold ItemReactor.effect.
  destruct (N.eqb_spec e UndefinedEntity) as [| _]; [done |]. cbv zeta.
  unfold setComponent, setCallback.
  rewrite !componentsOf_insert_eq, !insert_insert_eq.
  f_equal. by destruct (componentsOf w e).
Qed.

Lemma effect_lookup_ne h e e' w :
  e ≠ e' → ItemReactor.effect h e w !! e' = w !! e'.
Proof.
  intros Hne. destruct (decide (e = UndefinedEntity)) as [-> | He]; [done |].
  rewrite effect_insert by done. by apply lookup_insert_ne.
Qed.

Lemma effect_keeps_item h e e' w :
  hasItem (componentsOf w e') = true →
  hasItem (componentsOf (ItemReactor.effect h e w) e') = true.
Proof.
  intros Ht. destruct (decide (e = UndefinedEntity)) as [-> | He]; [done |].
  destruct (decide (e = e')) as [<- | Hne].
  - by destruct (effect_configures h e w He) as [Hi _].
  - by rewrite effect_other.
Qed.

Lemma render_world M k w :
  (ItemReactor.render useEntityByUUID M k w).1 = w
  ∨ (ItemReactor.render useEntityByUUID M k w).1
    = ItemReactor.effect k (useEntityByUUID k) w.
Proof.
  destruct (decide (M !! k = Some (useEntityByUUID k))) as [HM | HM].
  - left. by rewrite render_unchanged.
  - right. by rewrite render_effect.
Qed.

Lemma renderAll_lookup_ne M (items : list EntityUUID) w e :
  (∀ k, k ∈ items → useEntityByUUID k ≠ e) →
  (ItemState.renderAll useEntityByUUID M items w).1 !! e = w !! e.
Proof.
  induction items as [| k items IH] using rev_ind; intros Hitems; [done |].
  rewrite renderAll_snoc. simpl fst.
  destruct (render_world M k (ItemState.renderAll useEntityByUUID M items w).1) as [-> | ->].
  - apply IH. intros k' Hk'. apply Hitems, elem_of_app. by left.
  - rewrite effect_lookup_ne.
    + apply IH. intros k' Hk'. apply Hitems, elem_of_app. by left.
    + apply Hitems, elem_of_app. right. by apply list_elem_of_singleton.
Qed.

Lemma renderAll_unresolved M (items : list EntityUUID) w :
  (∀ k, k ∈ items → useEntityByUUID k = UndefinedEntity) →
  (ItemState.renderAll useEntityByUUID M items w).1 = w.
Proof.
  induction items as [| k items IH] using rev_ind; intros Hitems; [done |].
  rewrite renderAll_snoc. simpl fst.
  rewrite IH by (intros k' Hk'; apply Hitems, elem_of_app; by left).
  destruct (render_world M k w) as [-> | ->]; [done |].
  rewrite (Hitems k); [done |]. apply elem_of_app. right. by apply list_elem_of_singleton.
Qed.

Lemma renderAll_keeps_item M (items : list EntityUUID) w e :
  hasItem (componentsOf w e) = true →
  hasItem (componentsOf (ItemState.renderAll useEntityByUUID M items w).1 e) = true.
Proof.
  intros Ht. induction items as [| k items IH] using rev_ind; [done |].
  rewrite renderAll_snoc. simpl fst.
  destruct (render_world M k (ItemState.renderAll useEntityByUUID M items w).1) as [-> | ->];
    [done | by apply effect_keeps_item].
Qed.

(** The effect runs of a pass, in order: one for every rendered handle whose
    dependency differs from the mounted one. *)
Lemma renderAll_log M (items : list EntityUUID) w :
  (ItemState.renderAll useEntityByUUID M items w).2
  = (λ k, (k, useEntityByUUID k))
      <$> filter (λ k, M !! k ≠ Some (useEntityByUUID k)) items.
Proof.
  induction items as [| k items IH] using rev_ind; [done |].
  rewrite renderAll_snoc, filter_app, fmap_app. simpl snd. rewrite IH. f_equal.
  rewrite filter_cons, filter_nil.
  destruct (decide (M !! k ≠ Some (useEntityByUUID k))) as [HM | HM].
  - by rewrite render_effect.
  - apply dec_stable in HM. by rewrite render_unchanged.
Qed.

End BinderStore.

(** X11: the binder and the spawn system close the loop: once a pass has
    bound a handle of [ItemState] to its entity, that entity carries
    [ItemComponent], [itemQuery] on the resulting store is not empty, and a
    run of the spawn system on that store dispatches nothing (handles
    resolving to distinct entities, the binder having configured what it
    mounted before). *)
Theorem bound_item_blocks_spawn (useEntityByUUID : EntityUUID → Entity)
  (state : gmap EntityUUID string) (b : ItemState.Binder) (h : EntityUUID)
  (env : Env) (p : Process)
  (Hinjective : ResolvesInjectively useEntityByUUID state)
  (Hbinder : BinderConfigured b)
  (Hpresent : is_Some (state !! h))
  (Hresolved : useEntityByUUID h ≠ UndefinedEntity)
  (Hstore : ecs env = ItemState.world (ItemState.reactor useEntityByUUID state b).1) :
  useEntityByUUID h ∈ itemQuery (ecs env)
  ∧ ItemSpawnSystem.execute env p = p.
Proof.
  assert (hasItem (componentsOf (ecs env) (useEntityByUUID h)) = true) as Htag.
  { rewrite Hstore.
    assert (ItemState.mounted (ItemState.reactor useEntityByUUID state b).1 !! h
            = Some (useEntityByUUID h)) as HM.
    { rewrite mounted_reactor. by destruct Hpresent as [c ->]. }
    by destruct (reactor_configures useEntityByUUID state Hinjective b Hbinder h
                   (useEntityByUUID h) HM Hresolved) as [Hi _]. }
  split.
  - unfold itemQuery. apply list_elem_of_fmap.
    unfold componentsOf in Htag.
    destruct (ecs env !! useEntityByUUID h) as [c |] eqn:Hc; [| done].
    exists (useEntityByUUID h, c). split; [done |].
    apply elem_of_map_to_list, map_lookup_filter_Some. done.
  - apply execute_item_exists. by apply (itemQuery_tagged _ (useEntityByUUID h)).
Qed.

Lemma bound_item_blocks_spawn_witness :
  resolveH1 "H1" ∈ itemQuery
                     (ItemState.world (ItemState.reactor resolveH1 {["H1" := "red"]} freshBinder).1)
  ∧ ItemSpawnSystem.execute
      (mkEnv (ItemState.world (ItemState.reactor resolveH1 {["H1" := "red"]} freshBinder).1)
         (Some (mkNetwork true)) (3 # 10) {["platform" := [5%N]]} (λ _, 1%N)
         (λ _, Some "scene-root") "H2" (1 # 2, 1 # 4) (mkQuaternion 0 0 0 1))
      emptyProcess
    = emptyProcess.
Proof.
  apply (bound_item_blocks_spawn resolveH1 {["H1" := "red"]} freshBinder "H1"
           (mkEnv (ItemState.world (ItemState.reactor resolveH1 {["H1" := "red"]} freshBinder).1)
              (Some (mkNetwork true)) (3 # 10) {["platform" := [5%N]]} (λ _, 1%N)
              (λ _, Some "scene-root") "H2" (1 # 2, 1 # 4) (mkQuaternion 0 0 0 1))
           emptyProcess).
  - apply resolveH1_injective.
  - apply BinderConfigured_unmounted.
  - eexists. apply lookup_singleton_eq.
  - discriminate.
  - reflexivity.
Defined.

(** X12: a pass writes only to the entities its handles resolve to: the
    components of any other entity are exactly what they were; and when no
    handle of [ItemState] resolves to an entity, the pass leaves the whole
    store as it was. *)
Theorem reactor_frame (useEntityByUUID : EntityUUID → Entity)
  (state : gmap EntityUUID string) (b : ItemState.Binder) (e : Entity) :
  ((∀ h, is_Some (state !! h) → useEntityByUUID h ≠ e) →
   ItemState.world (ItemState.reactor useEntityByUUID state b).1 !! e
   = ItemState.world b !! e)
  ∧ ((∀ h, is_Some (state !! h) → useEntityByUUID h = UndefinedEntity) →
     ItemState.world (ItemState.reactor useEntityByUUID state b).1 = ItemState.world b).
Proof.
  unfold ItemState.reactor. simpl. split; intros Hres.
  - apply renderAll_lookup_ne. intros k Hk. by apply Hres, elem_of_keys.
  - apply renderAll_unresolved. intros k Hk. by apply Hres, elem_of_keys.
Qed.

Lemma reactor_frame_witness :
  ItemState.world
    (ItemState.reactor resolveH1 {["H1" := "red"]}
       (ItemState.mkBinder ∅ (setComponent 4%N (NameComponent "platform") ∅))).1 !! 4%N
  = setComponent 4%N (NameComponent "platform") ∅ !! 4%N
  ∧ ItemState.world (ItemState.reactor resolveNone {["H1" := "red"]} freshBinder).1
    = ItemState.world freshBinder.
Proof.
  split.
  - apply (reactor_frame resolveH1 {["H1" := "red"]}
             (ItemState.mkBinder ∅ (setComponent 4%N (NameComponent "platform") ∅)) 4%N).
    intros h _. unfold resolveH1. case_decide; discriminate.
  - apply (reactor_frame resolveNone {["H1" := "red"]} freshBinder 0%N).
    reflexivity.
Defined.

(** X13: the binder never removes [ItemComponent]: the effect has no
    cleanup, so an entity that carried the component before a pass carries
    it after, whatever has happened to its handle in [ItemState] or to its
    resolution. *)
Theorem reactor_never_untags (useEntityByUUID : EntityUUID → Entity)
  (state : gmap EntityUUID string) (b : ItemState.Binder) (e : Entity)
  (Htagged : hasItem (componentsOf (ItemState.world b) e) = true) :
  hasItem (componentsOf (ItemState.world (ItemState.reactor useEntityByUUID state b).1) e)
  = true
  ∧ itemQuery (ItemState.world (ItemState.reactor useEntityByUUID state b).1) ≠ [].
Proof.
  assert (hasItem
            (componentsOf (ItemState.world (ItemState.reactor useEntityByUUID state b).1) e)
          = true) as Ht.
  { unfold ItemState.reactor. simpl. by apply renderAll_keeps_item. }
  split; [exact Ht | by apply (itemQuery_tagged _ e)].
Qed.

Lemma sample_pass_tags :
  hasItem
    (componentsOf
       (ItemState.world (ItemState.reactor resolveH1 {["H1" := "red"]} freshBinder).1) 9%N)
  = true.
Proof.
  assert (ItemState.mounted (ItemState.reactor resolveH1 {["H1" := "red"]} freshBinder).1
            !! "H1" = Some 9%N) as HM.
  { rewrite mounted_reactor, lookup_singleton_eq. reflexivity. }
  assert (9%N ≠ UndefinedEntity) as Hne by discriminate.
  by destruct (reactor_configures resolveH1 {["H1" := "red"]}
                 (resolveH1_injective _) freshBinder (BinderConfigured_unmounted ∅)
                 "H1" 9%N HM Hne) as [Hi _].
Qed.

Lemma reactor_never_untags_witness :
  hasItem
    (componentsOf
       (ItemState.world
          (ItemState.reactor resolveNone ∅
             (ItemState.reactor resolveH1 {["H1" := "red"]} freshBinder).1).1)
       9%N)
  = true.
Proof.
  apply (reactor_never_untags resolveNone ∅
           (ItemState.reactor resolveH1 {["H1" := "red"]} freshBinder).1 9%N).
  apply sample_pass_tags.
Defined.

Lemma filter_all {A} (P : A → Prop) `{∀ x, Decision (P x)} (l : list A) :
  (∀ x, x ∈ l → P x) → filter P l = l.
Proof.
  induction l as [| x l IH]; intros Hall; [done |].
  rewrite filter_cons, decide_True by (apply Hall; left).
  f_equal. apply IH. intros y Hy. apply Hall. by right.
Qed.

Lemma reactor_log (useEntityByUUID : EntityUUID → Entity)
  (state : gmap EntityUUID string) (b : ItemState.Binder) :
  (ItemState.reactor useEntityByUUID state b).2
  = (λ k, (k, useEntityByUUID k))
      <$> filter (λ k, ItemState.mounted b !! k ≠ Some (useEntityByUUID k))
            (map_to_list state).*1.
Proof. unfold ItemState.reactor. simpl. apply renderAll_log. Qed.

Lemma resolveNone_injective (state : gmap EntityUUID string) :
  ResolvesInjectively resolveNone state.
Proof. intros h1 h2 _ _ Hne. by destruct Hne. Qed.

(** X14: a pass runs the effect exactly for the handles of [ItemState]
    whose instance is new or whose entity differs from the one the instance
    held at the previous pass, with the entity the handle now resolves to,
    and at most once per handle; the first pass runs it once for every
    handle. *)
Theorem reactor_effect_runs (useEntityByUUID : EntityUUID → Entity)
  (state : gmap EntityUUID string) (b : ItemState.Binder) (h : EntityUUID) (e : Entity) :
  ((h, e) ∈ (ItemState.reactor useEntityByUUID state b).2
   ↔ is_Some (state !! h)
     ∧ e = useEntityByUUID h
     ∧ ItemState.mounted b !! h ≠ Some (useEntityByUUID h))
  ∧ NoDup (ItemState.reactor useEntityByUUID state b).2.*1
  ∧ (ItemState.mounted b = ∅ →
     length (ItemState.reactor useEntityByUUID state b).2 = size state).
Proof.
  rewrite reactor_log. split; [| split].
  - rewrite list_elem_of_fmap. split.
    + intros (k & [= -> ->] & Hk). apply list_elem_of_filter in Hk as [HM Hk].
      by apply elem_of_keys in Hk.
    + intros (Hh & -> & HM). exists h. split; [done |].
      apply list_elem_of_filter. split; [done | by apply elem_of_keys].
  - rewrite <- list_fmap_compose.
    rewrite (list_fmap_ext _ id) by done. rewrite list_fmap_id.
    apply NoDup_filter, NoDup_fst_map_to_list.
  - intros Hfresh. rewrite length_fmap, filter_all.
    + by rewrite length_fmap, length_map_to_list.
    + intros k _. by rewrite Hfresh, lookup_empty.
Qed.

Lemma reactor_effect_runs_witness :
  ("H1", 9%N) ∈ (ItemState.reactor resolveH1 {["H1" := "red"]} freshBinder).2
  ∧ length (ItemState.reactor resolveH1 {["H1" := "red"]} freshBinder).2
    = size ({["H1" := "red"]} : gmap EntityUUID string).
Proof.
  split.
  - apply (reactor_effect_runs resolveH1 {["H1" := "red"]} freshBinder "H1" 9%N).
    split; [eexists; apply lookup_singleton_eq |]. split; [reflexivity |].
    simpl. by rewrite lookup_empty.
  - apply (reactor_effect_runs resolveH1 {["H1" := "red"]} freshBinder "H1" 9%N).
    reflexivity.
Defined.

(** X15: what the effect leaves on an entity does not depend on the
    components the entity had, except for its other callbacks, which are
    kept: the entity ends with [itemComponents]; and running the effect
    again on the same entity, for the same or another handle, gives the
    same store as running it once for the last handle. *)
Theorem effect_last_writer (h h' : EntityUUID) (e : Entity) (w : gmap Entity Components)
  (key : string) :
  ItemReactor.effect h' e (ItemReactor.effect h e w) = ItemReactor.effect h' e w
  ∧ (e ≠ UndefinedEntity →
     componentsOf (ItemReactor.effect h e w) e = itemComponents h (componentsOf w e))
  ∧ (key ≠ "onCollectItem" →
     callbacks (componentsOf (ItemReactor.effect h e w) e) !! key
     = callbacks (componentsOf w e) !! key).
Proof.
  destruct (decide (e = UndefinedEntity)) as [-> | He].
  { split; [done |]. split; [done | by intros _]. }
  rewrite !effect_insert by done. rewrite componentsOf_insert_eq, insert_insert_eq.
  split; [| split].
  - f_equal. unfold itemComponents. simpl. f_equal. apply insert_insert_eq.
  - done.
  - intros Hkey. simpl. by apply lookup_insert_ne.
Qed.

Lemma effect_last_writer_witness :
  componentsOf (ItemReactor.effect "H1" 9%N ∅) 9%N = itemComponents "H1" (componentsOf ∅ 9%N)
  ∧ callbacks (componentsOf (ItemReactor.effect "H1" 9%N ∅) 9%N) !! "onOther"
    = callbacks (componentsOf ∅ 9%N) !! "onOther".
Proof.
  split.
  - apply (effect_last_writer "H1" "H1" 9%N ∅ "onOther"). discriminate.
  - apply (effect_last_writer "H1" "H1" 9%N ∅ "onOther"). discriminate.
Defined.

(** X16: a handle whose entity is not known at one pass is picked up at the
    next: if [UUIDComponent] resolves the handle to no entity at the first
    pass and to an entity at the second, the second pass runs the effect for
    it and leaves that entity with the item configuration (handles resolving
    to distinct entities at both passes, the binder having configured what
    it mounted before). *)
Theorem late_entity_configured (resolve1 resolve2 : EntityUUID → Entity)
  (state : gmap EntityUUID string) (b : ItemState.Binder) (h : EntityUUID)
  (Hinjective1 : ResolvesInjectively resolve1 state)
  (Hinjective2 : ResolvesInjectively resolve2 state)
  (Hbinder : BinderConfigured b)
  (Hpresent : is_Some (state !! h))
  (Hunresolved : resolve1 h = UndefinedEntity)
  (Hresolved : resolve2 h ≠ UndefinedEntity) :
  (h, resolve2 h)
    ∈ (ItemState.reactor resolve2 state (ItemState.reactor resolve1 state b).1).2
  ∧ ItemConfigured h
      (componentsOf
         (ItemState.world
            (ItemState.reactor resolve2 state (ItemState.reactor resolve1 state b).1).1)
         (resolve2 h)).
Proof.
  split.
  - rewrite reactor_log. apply list_elem_of_fmap. exists h. split; [done |].
    apply list_elem_of_filter. split; [| by apply elem_of_keys].
    rewrite mounted_reactor. destruct Hpresent as [c ->]. simpl.
    intros [= Heq]. congruence.
  - apply (reactor_configures resolve2 state Hinjective2 _
             (reactor_configures resolve1 state Hinjective1 b Hbinder) h); [| done].
    rewrite mounted_reactor. by destruct Hpresent as [c ->].
Qed.

Lemma late_entity_configured_witness :
  ("H1", resolveH1 "H1")
    ∈ (ItemState.reactor resolveH1 {["H1" := "red"]}
         (ItemState.reactor resolveNone {["H1" := "red"]} freshBinder).1).2
  ∧ ItemConfigured "H1"
      (componentsOf
         (ItemState.world
            (ItemState.reactor resolveH1 {["H1" := "red"]}
               (ItemState.reactor resolveNone {["H1" := "red"]} freshBinder).1).1)
         (resolveH1 "H1")).
Proof.
  apply (late_entity_configured resolveNone resolveH1 {["H1" := "red"]} freshBinder "H1").
  - apply resolveNone_injective.
  - apply resolveH1_injective.
  - apply BinderConfigured_unmounted.
  - eexists. apply lookup_singleton_eq.
  - reflexivity.
  - discriminate.
Defined.

(** X17: collecting scores a point: the callback a pass has registered on
    the entity of a bound handle, called with the local avatar as the
    overlapping entity, queues the destroy action for that handle and the
    local user; applying that action raises the user's score by one and
    leaves [ItemState] as it was (handles resolving to distinct entities,
    the binder having configured what it mounted before). *)
Theorem collect_scores_a_point (useEntityByUUID : EntityUUID → Entity)
  (state : gmap EntityUUID string) (b : ItemState.Binder) (h : EntityUUID)
  (selfAvatarEntity triggerEntity : Entity) (userID : UserID) (p : Process)
  (Hinjective : ResolvesInjectively useEntityByUUID state)
  (Hbinder : BinderConfigured b)
  (Hpresent : is_Some (state !! h))
  (Hresolved : useEntityByUUID h ≠ UndefinedEntity) :
  ∃ f,
    callbacks
      (componentsOf (ItemState.world (ItemState.reactor useEntityByUUID state b).1)
         (useEntityByUUID h)) !! "onCollectItem" = Some f
    ∧ dispatched (ItemReactor.runCallback f selfAvatarEntity userID triggerEntity
                    selfAvatarEntity p)
      = (dispatched p ++ [DispatchDestroy (mkDestroy h userID)])%list
    ∧ ScoreState.currentScore
        (scoreState (applyAction (DestroyA (mkDestroy h userID)) p)) userID
      = (ScoreState.currentScore (scoreState p) userID + 1)%Z
    ∧ itemState (applyAction (DestroyA (mkDestroy h userID)) p) = itemState p.
Proof.
  assert (ItemState.mounted (ItemState.reactor useEntityByUUID state b).1 !! h
          = Some (useEntityByUUID h)) as HM.
  { rewrite mounted_reactor. by destruct Hpresent as [c ->]. }
  destruct (reactor_configures useEntityByUUID state Hinjective b Hbinder h
              (useEntityByUUID h) HM Hresolved)
    as (_ & _ & _ & _ & _ & Hcb & _).
  exists (CollectItemCallback h). split; [exact Hcb |].
  split; [| split; [| reflexivity]].
  - simpl. unfold ItemReactor.onCollectItem. by rewrite N.eqb_refl.
  - simpl scoreState. rewrite ScoreState_receptors_destroy, currentScore_insert.
    simpl. by rewrite decide_True.
Qed.

Lemma collect_scores_a_point_witness :
  ∃ f,
    callbacks
      (componentsOf (ItemState.world (ItemState.reactor resolveH1 {["H1" := "red"]} freshBinder).1)
         (resolveH1 "H1")) !! "onCollectItem" = Some f
    ∧ dispatched (ItemReactor.runCallback f 3%N "U1" 9%N 3%N processWithItem)
      = (dispatched processWithItem ++ [DispatchDestroy (mkDestroy "H1" "U1")])%list
    ∧ ScoreState.currentScore
        (scoreState (applyAction (DestroyA (mkDestroy "H1" "U1")) processWithItem)) "U1"
      = (ScoreState.currentScore (scoreState processWithItem) "U1" + 1)%Z
    ∧ itemState (applyAction (DestroyA (mkDestroy "H1" "U1")) processWithItem)
      = itemState processWithItem.
Proof.
  apply (collect_scores_a_point resolveH1 {["H1" := "red"]} freshBinder "H1" 3%N 9%N "U1"
           processWithItem).
  - apply resolveH1_injective.
  - apply BinderConfigured_unmounted.
  - eexists. apply lookup_singleton_eq.
  - discriminate.
Defined.
